(** * Movie Lobby backend: a shallow embedding of the request pipeline

    The development follows the TypeScript sources:

    - [middleware/authMiddleware.ts]   the JWT admin gate ([authenticateAdmin]);
    - [models/movie.ts]                the Mongoose schema ([MovieSchema]);
    - [controllers/MovieController.ts] the five request handlers;
    - [routes/movieRoutes.ts]          the route table ([router]).

    The handlers are written in the source against three libraries:
    Express (routing, [req]/[res]), jsonwebtoken ([jwt.verify]) and Mongoose
    ([save], [find], [findByIdAndUpdate], [findByIdAndDelete]).  Express and
    Mongoose are modelled by small executable definitions that follow the
    documented behaviour the handlers rely on; what cannot be computed
    (signature verification, identifier generation, the part of the regular
    expression language that is not modelled) is a field of [Deps].

    Request bodies are modelled at the type the interface [IMovie] declares:
    each of the four schema paths is either absent from the body or carries a
    value of its declared type (a string, or a number for [rating]).  Numbers
    are rationals. *)

From Stdlib Require Import Ascii String QArith.
From stdpp Require Import base strings list option gmap.

Close Scope Q_scope.
Open Scope string_scope.

(** ** JavaScript values and string operations *)

Module Js.

(** The values a decoded token member can take; [object] stands for every
    non-primitive value. *)
Inductive value :=
| undefined
| null
| boolean (b : bool)
| number (q : Q)
| str (s : string)
| object.

(** [v !== s] for a string literal [s]: strict inequality never converts. *)
Definition strict_ne_string (v : value) (s : string) : bool :=
  match v with
  | str t => negb (String.eqb t s)
  | _ => true
  end.

(** [s.split(sep)] for a one-character separator: the pieces between
    successive separators, in order; never the empty list. *)
Fixpoint split (sep : ascii) (s : string) : list string :=
  match s with
  | EmptyString => [EmptyString]
  | String c rest =>
      if Ascii.eqb c sep then EmptyString :: split sep rest
      else match split sep rest with
           | [] => [String c EmptyString]
           | w :: ws => String c w :: ws
           end
  end.

(** Truthiness of an optional string: [undefined] and [""] are falsy. *)
Definition truthy (o : option string) : bool :=
  match o with
  | None => false
  | Some s => negb (String.eqb s "")
  end.

End Js.

(** ** HTTP responses *)

(** The documents of the collection: an identifier and the four schema
    paths.  A path of a stored document may be absent: MongoDB itself
    enforces no schema. *)
Definition ObjectId := N.

Record Fields := {
  title : option string;
  genre : option string;
  rating : option Q;
  streamingLink : option string;
}.

Record IMovie := {
  _id : ObjectId;
  doc : Fields;
}.

Inductive Body :=
| Message (message : string)      (* [{ message: ... }] *)
| OneMovie (m : IMovie)           (* a document *)
| Movies (ms : list IMovie)       (* an array of documents *)
| CannotRoute.                    (* Express's own 404 page *)

Record Response := {
  status : nat;
  json : Body;
}.

(** [res.json(x)] without [res.status] answers 200. *)
Definition res_json (b : Body) : Response := {| status := 200; json := b |}.
Definition res_status_json (code : nat) (b : Body) : Response :=
  {| status := code; json := b |}.

(** ** Requests *)

Inductive Method := GET | POST | PUT | DELETE.

#[global] Instance Method_eq_dec : EqDecision Method.
Proof. solve_decision. Defined.

(** [path] is the list of path segments below the [/api] mount point;
    [params_id] is [req.params.id], filled in by the router. *)
Record Request := {
  method : Method;
  path : list string;
  headers_authorization : option string;
  params_id : string;
  query_q : string;
  body : Fields;
}.

Definition with_params_id (req : Request) (id : string) : Request :=
  {| method := method req; path := path req;
     headers_authorization := headers_authorization req;
     params_id := id; query_q := query_q req; body := body req |}.

(** ** What the process depends on *)

Record Decoded := { role : Js.value }.

Record Deps := {
  (** [jwt.verify(token, secret)]: the decoded payload, or [None] when the
      call throws (malformed token, bad signature, expired, no secret). *)
  jwt_verify : string -> option string -> option Decoded;
  (** [process.env.JWT_SECRET]. *)
  JWT_SECRET : option string;
  (** The identifier the driver gives to the [n]-th document constructed
      by this process. *)
  ObjectId_generate : nat -> ObjectId;
  (** The regular expression engine on the patterns that [parse_plain]
      below does not cover: [None] when the pattern does not compile,
      otherwise the case-insensitive search predicate on subjects. *)
  pcre_other : string -> option (string -> bool);
}.

(** ** middleware/authMiddleware.ts *)

Inductive Step :=
| Next                       (* [next()] was called *)
| Sent (r : Response).       (* a response was sent, the chain stops *)

(** [req.headers.authorization?.split(' ')[1]] *)
Definition token_of (authorization : option string) : option string :=
  match authorization with
  | None => None
  | Some h => Js.split " "%char h !! 1%nat
  end.

Definition authenticateAdmin (d : Deps) (req : Request) : Step :=
  let token := token_of (headers_authorization req) in
  if negb (Js.truthy token) then
    Sent (res_status_json 401 (Message "Unauthorized"))
  else
    match token with
    | None => Sent (res_status_json 401 (Message "Unauthorized"))
    | Some t =>
        match jwt_verify d t (JWT_SECRET d) with
        | Some decoded =>
            if Js.strict_ne_string (role decoded) "admin" then
              Sent (res_status_json 403 (Message "Forbidden"))
            else Next
        | None => Sent (res_status_json 401 (Message "Unauthorized"))
        end
    end.

(** ** models/movie.ts *)

(** A schema path of type [String] or [Number] with the options the source
    uses. *)
Record StringPath := { s_required : bool }.
Record NumberPath := { n_required : bool; n_min : option Q; n_max : option Q }.

Record Schema := {
  path_title : StringPath;
  path_genre : StringPath;
  path_rating : NumberPath;
  path_streamingLink : StringPath;
}.

Definition MovieSchema : Schema := {|
  path_title := {| s_required := true |};
  path_genre := {| s_required := true |};
  path_rating := {| n_required := true; n_min := Some (0 # 1)%Q; n_max := Some (10 # 1)%Q |};
  path_streamingLink := {| s_required := true |};
|}.

(** ** Mongoose *)

Module Mongoose.

Inductive Error :=
| ValidationError      (* a schema validator failed *)
| CastError            (* a value could not be cast to its schema type *)
| MongoServerError     (* the server refused the command *)
| MongoNetworkError.   (* the server could not be reached *)

(** The result of awaiting a query. *)
Inductive Outcome (A : Type) :=
| Resolved (a : A)
| Rejected (e : Error).
Arguments Resolved {A} a.
Arguments Rejected {A} e.

(** *** Validators ([document.validate], run by [save])

    [required] on a [String] path fails on [undefined], [null] and the
    empty string; on a [Number] path it fails on [undefined] and [null].
    [min] and [max] are inclusive and only apply to a present value. *)
Definition check_string (p : StringPath) (v : option string) : bool :=
  match v with
  | None => negb (s_required p)
  | Some s => if s_required p then negb (String.eqb s "") else true
  end.

Definition check_bound (le : Q -> Q -> bool) (bound : option Q) (q : Q) : bool :=
  match bound with
  | None => true
  | Some b => le b q
  end.

Definition check_number (p : NumberPath) (v : option Q) : bool :=
  match v with
  | None => negb (n_required p)
  | Some q =>
      check_bound Qle_bool (n_min p) q
      && check_bound (fun b x => Qle_bool x b) (n_max p) q
  end.

Definition validate (s : Schema) (f : Fields) : bool :=
  check_string (path_title s) (title f)
  && check_string (path_genre s) (genre f)
  && check_number (path_rating s) (rating f)
  && check_string (path_streamingLink s) (streamingLink f).

(** *** Identifiers

    A string casts to an [ObjectId] when it is 24 hexadecimal digits; the
    identifier is the 96-bit number they spell. *)
Definition hex_digit (c : ascii) : option N :=
  let n := N_of_ascii c in
  if (48 <=? n)%N && (n <=? 57)%N then Some (n - 48)%N
  else if (97 <=? n)%N && (n <=? 102)%N then Some (n - 87)%N
  else if (65 <=? n)%N && (n <=? 70)%N then Some (n - 55)%N
  else None.

Fixpoint hex_value (acc : N) (s : string) : option N :=
  match s with
  | EmptyString => Some acc
  | String c rest =>
      match hex_digit c with
      | Some v => hex_value (16 * acc + v)%N rest
      | None => None
      end
  end.

Definition castObjectId (s : string) : option ObjectId :=
  if Nat.eqb (String.length s) 24 then hex_value 0%N s else None.

End Mongoose.

Import Mongoose.

(** *** The state of the process and of its database *)

Record World := {
  docs : gmap ObjectId Fields;   (* the [movies] collection, by [_id] *)
  connected : bool;              (* whether the server answers commands *)
  constructed : nat;             (* documents constructed so far *)
}.

Definition with_docs (w : World) (m : gmap ObjectId Fields) : World :=
  {| docs := m; connected := connected w; constructed := constructed w |}.

Definition with_constructed (w : World) (n : nat) : World :=
  {| docs := docs w; connected := connected w; constructed := n |}.

(** The collection in store-native order. *)
Definition all_movies (w : World) : list IMovie :=
  (fun kv => {| _id := fst kv; doc := snd kv |}) <$> map_to_list (docs w).

(** *** Regular expressions ([$regex] with [$options: 'i'])

    The server compiles the pattern with PCRE and searches the subject for
    a match anywhere.  The fragment modelled here is the one whose meaning
    needs no further parsing: ordinary printable characters, the dot, and a
    backslash followed by a punctuation character.  Characters are bytes and
    case folding is that of ASCII.  Every other pattern is left to
    [pcre_other]. *)

Module Regex.

Inductive Atom :=
| Lit (c : ascii)    (* this character, in either case *)
| Dot.               (* any character but a line feed *)

Definition between (lo hi : N) (c : ascii) : bool :=
  ((lo <=? N_of_ascii c) && (N_of_ascii c <=? hi))%N.

Definition to_lower (c : ascii) : ascii :=
  if between 65 90 c then ascii_of_N (N_of_ascii c + 32) else c.

Definition is_alnum (c : ascii) : bool :=
  between 48 57 c || between 65 90 c || between 97 122 c.

Definition is_printable (c : ascii) : bool := between 32 126 c.

Definition metacharacters : list ascii :=
  list_ascii_of_string "\^$.[]|()?*+{}".

Definition is_meta (c : ascii) : bool := existsb (Ascii.eqb c) metacharacters.

Definition is_plain (c : ascii) : bool := is_printable c && negb (is_meta c).

Fixpoint parse_plain (p : string) : option (list Atom) :=
  match p with
  | EmptyString => Some []
  | String c rest =>
      if Ascii.eqb c "."%char then cons Dot <$> parse_plain rest
      else if Ascii.eqb c "\"%char then
        match rest with
        | String e rest' =>
            if is_printable e && negb (is_alnum e)
            then cons (Lit e) <$> parse_plain rest'
            else None
        | EmptyString => None
        end
      else if is_plain c then cons (Lit c) <$> parse_plain rest
      else None
  end.

Definition atom_accepts (a : Atom) (c : ascii) : bool :=
  match a with
  | Lit x => Ascii.eqb (to_lower x) (to_lower c)
  | Dot => negb (Ascii.eqb c "010"%char)
  end.

(** The atoms match a prefix of the subject. *)
Fixpoint match_here (atoms : list Atom) (s : string) : bool :=
  match atoms, s with
  | [], _ => true
  | a :: atoms', String c s' => atom_accepts a c && match_here atoms' s'
  | _ :: _, EmptyString => false
  end.

(** The atoms match somewhere in the subject. *)
Fixpoint search (atoms : list Atom) (s : string) : bool :=
  match_here atoms s
  || match s with
     | String _ s' => search atoms s'
     | EmptyString => false
     end.

Definition compile_i (d : Deps) (pattern : string) : option (string -> bool) :=
  match parse_plain pattern with
  | Some atoms => Some (search atoms)
  | None => pcre_other d pattern
  end.

End Regex.

(** *** The model [Movie = mongoose.model('Movie', MovieSchema)] *)

Module Movie.

(** [new Movie({...})]: the document gets its identifier when it is
    constructed. *)
Definition new (d : Deps) (f : Fields) (w : World) : IMovie * World :=
  ({| _id := ObjectId_generate d (constructed w); doc := f |},
   with_constructed w (S (constructed w))).

(** [document.save()] of a new document: validate against the schema,
    then insert; the server refuses a duplicate [_id]. *)
Definition save (m : IMovie) (w : World) : Outcome unit * World :=
  if negb (validate MovieSchema (doc m)) then (Rejected ValidationError, w)
  else if negb (connected w) then (Rejected MongoNetworkError, w)
  else match docs w !! _id m with
       | Some _ => (Rejected MongoServerError, w)
       | None => (Resolved tt, with_docs w (<[_id m := doc m]> (docs w)))
       end.

(** [Movie.find()] *)
Definition find (w : World) : Outcome (list IMovie) :=
  if negb (connected w) then Rejected MongoNetworkError
  else Resolved (all_movies w).

(** A [$regex] condition on a path: an absent value never matches. *)
Definition path_matches (t : string -> bool) (v : option string) : bool :=
  match v with
  | Some s => t s
  | None => false
  end.

(** [Movie.find({ $or: [{ title: { $regex: q, $options: 'i' } },
                         { genre: { $regex: q, $options: 'i' } }] })] *)
Definition find_title_or_genre (d : Deps) (q : string) (w : World)
  : Outcome (list IMovie) :=
  if negb (connected w) then Rejected MongoNetworkError
  else match Regex.compile_i d q with
       | None => Rejected MongoServerError
       | Some t =>
           Resolved (filter
                       (fun m => path_matches t (title (doc m))
                                 || path_matches t (genre (doc m)))
                       (all_movies w))
       end.

(** The update document Mongoose sends for a plain body: [$set] of the
    paths the body carries. *)
Definition set_path {A} (new old : option A) : option A :=
  match new with
  | Some v => Some v
  | None => old
  end.

Definition apply_set (upd cur : Fields) : Fields := {|
  title := set_path (title upd) (title cur);
  genre := set_path (genre upd) (genre cur);
  rating := set_path (rating upd) (rating cur);
  streamingLink := set_path (streamingLink upd) (streamingLink cur);
|}.

Definition is_empty_update (upd : Fields) : bool :=
  match title upd, genre upd, rating upd, streamingLink upd with
  | None, None, None, None => true
  | _, _, _, _ => false
  end.

(** [Movie.findByIdAndUpdate(id, update, { new: true })].  The identifier
    is cast first.  Update validators are off unless [runValidators] is
    passed, and the source does not pass it.  With an empty update the
    query is a plain [findOne].  [new: true] returns the document as it
    is after the update. *)
Definition findByIdAndUpdate (id : string) (upd : Fields) (w : World)
  : Outcome (option IMovie) * World :=
  match castObjectId id with
  | None => (Rejected CastError, w)
  | Some oid =>
      if negb (connected w) then (Rejected MongoNetworkError, w)
      else match docs w !! oid with
           | None => (Resolved None, w)
           | Some cur =>
               if is_empty_update upd then
                 (Resolved (Some {| _id := oid; doc := cur |}), w)
               else
                 let updated := apply_set upd cur in
                 (Resolved (Some {| _id := oid; doc := updated |}),
                  with_docs w (<[oid := updated]> (docs w)))
           end
  end.

(** [Movie.findByIdAndDelete(id)] resolves to the deleted document, or to
    [null] when there is none. *)
Definition findByIdAndDelete (id : string) (w : World)
  : Outcome (option IMovie) * World :=
  match castObjectId id with
  | None => (Rejected CastError, w)
  | Some oid =>
      if negb (connected w) then (Rejected MongoNetworkError, w)
      else match docs w !! oid with
           | None => (Resolved None, w)
           | Some cur =>
               (Resolved (Some {| _id := oid; doc := cur |}),
                with_docs w (delete oid (docs w)))
           end
  end.

End Movie.

(** ** controllers/MovieController.ts *)

Definition Handler := Request -> World -> Response * World.

Definition listMovies : Handler := fun req w =>
  match Movie.find w with
  | Resolved movies => (res_json (Movies movies), w)
  | Rejected _ => (res_status_json 500 (Message "Server error"), w)
  end.

Definition searchMovies (d : Deps) : Handler := fun req w =>
  let query := query_q req in
  match Movie.find_title_or_genre d query w with
  | Resolved movies => (res_json (Movies movies), w)
  | Rejected _ => (res_status_json 500 (Message "Server error"), w)
  end.

Definition addMovie (d : Deps) : Handler := fun req w =>
  let picked := {| title := title (body req); genre := genre (body req);
                   rating := rating (body req);
                   streamingLink := streamingLink (body req) |} in
  let (newMovie, w1) := Movie.new d picked w in
  match Movie.save newMovie w1 with
  | (Resolved _, w2) => (res_status_json 201 (OneMovie newMovie), w2)
  | (Rejected _, w2) => (res_status_json 400 (Message "Invalid data"), w2)
  end.

Definition updateMovie : Handler := fun req w =>
  match Movie.findByIdAndUpdate (params_id req) (body req) w with
  | (Resolved None, w') => (res_status_json 404 (Message "Movie not found"), w')
  | (Resolved (Some movie), w') => (res_json (OneMovie movie), w')
  | (Rejected _, w') => (res_status_json 400 (Message "Invalid data"), w')
  end.

Definition deleteMovie : Handler := fun req w =>
  match Movie.findByIdAndDelete (params_id req) w with
  | (Resolved None, w') => (res_status_json 404 (Message "Movie not found"), w')
  | (Resolved (Some _), w') =>
      (res_json (Message "Movie deleted successfully"), w')
  | (Rejected _, w') => (res_status_json 500 (Message "Server error"), w')
  end.

(** ** routes/movieRoutes.ts and the Express dispatch *)

Definition Middleware := Request -> World -> Step * World.

(** A middleware that only decides, and a handler that always answers. *)
Definition gate (g : Request -> Step) : Middleware := fun req w => (g req, w).
Definition final (h : Handler) : Middleware :=
  fun req w => let (r, w') := h req w in (Sent r, w').

Inductive Segment :=
| Fixed (s : string)     (* a literal segment such as [movies] *)
| ParamId.               (* [:id] *)

Record Layer := {
  layer_method : Method;
  layer_path : list Segment;
  layer_chain : list Middleware;
}.

Definition router (d : Deps) : list Layer := [
  {| layer_method := GET; layer_path := [Fixed "movies"];
     layer_chain := [final listMovies] |};
  {| layer_method := GET; layer_path := [Fixed "search"];
     layer_chain := [final (searchMovies d)] |};
  {| layer_method := POST; layer_path := [Fixed "movies"];
     layer_chain := [gate (authenticateAdmin d); final (addMovie d)] |};
  {| layer_method := PUT; layer_path := [Fixed "movies"; ParamId];
     layer_chain := [gate (authenticateAdmin d); final updateMovie] |};
  {| layer_method := DELETE; layer_path := [Fixed "movies"; ParamId];
     layer_chain := [gate (authenticateAdmin d); final deleteMovie] |}
].

(** Matching a route path against the request path: [Some id] gives the
    value bound to [:id] so far ([acc] when the route has no parameter).
    Segments are compared as they are written, one for one; a path that
    differs from the route in letter case or by a trailing slash, which
    Express sends to the same layer, is not matched here. *)
Fixpoint match_path (pat : list Segment) (p : list string) (acc : string)
  : option string :=
  match pat, p with
  | [], [] => Some acc
  | Fixed s :: pat', x :: p' =>
      if String.eqb s x then match_path pat' p' acc else None
  | ParamId :: pat', x :: p' =>
      if String.eqb x "" then None else match_path pat' p' x
  | _, _ => None
  end.

(** The middleware of a chain run in order until one sends a response. *)
Fixpoint run_chain (ms : list Middleware) (req : Request) (w : World)
  : option Response * World :=
  match ms with
  | [] => (None, w)
  | m :: rest =>
      match m req w with
      | (Sent r, w') => (Some r, w')
      | (Next, w') => run_chain rest req w'
      end
  end.

(** The first layer whose method and path match serves the request; when a
    chain ends by [next()] the following layers are tried; when none is
    left Express answers 404 itself. *)
Fixpoint dispatch (layers : list Layer) (req : Request) (w : World)
  : Response * World :=
  match layers with
  | [] => (res_status_json 404 CannotRoute, w)
  | l :: ls =>
      if bool_decide (layer_method l = method req) then
        match match_path (layer_path l) (path req) (params_id req) with
        | Some id =>
            match run_chain (layer_chain l) (with_params_id req id) w with
            | (Some r, w') => (r, w')
            | (None, w') => dispatch ls req w'
            end
        | None => dispatch ls req w
        end
      else dispatch ls req w
  end.

(** The router as [app.ts] mounts it under [/api]: what serves a request
    that [cors()] and [bodyParser.json()] have passed on with its body
    parsed. *)
Definition app (d : Deps) : Request -> World -> Response * World :=
  dispatch (router d).

(** ** Declarative notions used by the statements *)

(** The requests the route table sends through the admin gate, each with
    the request its handler sees (the router has bound [:id]) and the
    handler itself. *)
Inductive MutatingRoute (d : Deps) : Request -> Request -> Handler -> Prop :=
| route_post req :
    method req = POST -> path req = ["movies"] ->
    MutatingRoute d req (with_params_id req (params_id req)) (addMovie d)
| route_put req id :
    method req = PUT -> path req = ["movies"; id] -> id <> "" ->
    MutatingRoute d req (with_params_id req id) updateMovie
| route_delete req id :
    method req = DELETE -> path req = ["movies"; id] -> id <> "" ->
    MutatingRoute d req (with_params_id req id) deleteMovie.

(** A string without a space character. *)
Fixpoint no_space (s : string) : Prop :=
  match s with
  | EmptyString => True
  | String c rest => c <> " "%char /\ no_space rest
  end.

(** Case-insensitive containment: the lower-cased query occurs as a
    contiguous part of the lower-cased subject. *)
Fixpoint lower (s : string) : string :=
  match s with
  | EmptyString => EmptyString
  | String c rest => String (Regex.to_lower c) (lower rest)
  end.

Definition contains_ci (x s : string) : Prop :=
  exists pre post, lower s = (pre ++ lower x ++ post)%string.

(** A query made of ordinary characters only. *)
Fixpoint plain_query (s : string) : Prop :=
  match s with
  | EmptyString => True
  | String c rest => Regex.is_plain c = true /\ plain_query rest
  end.

(** The atoms of a query read character by character. *)
Fixpoint literal_atoms (x : string) : list Regex.Atom :=
  match x with
  | EmptyString => []
  | String c rest => Regex.Lit c :: literal_atoms rest
  end.

(** The record matches the query on [title] or on [genre]. *)
Definition title_or_genre_contains (x : string) (m : IMovie) : Prop :=
  (exists t, title (doc m) = Some t /\ contains_ci x t)
  \/ (exists g, genre (doc m) = Some g /\ contains_ci x g).

(** ** A concrete process for the examples *)

Module Demo.

(** A verifier that knows two tokens: [good] carries the role [admin],
    [user] the role [user]. *)
Definition verify (token : string) (secret : option string) : option Decoded :=
  if String.eqb token "good" then Some {| role := Js.str "admin" |}
  else if String.eqb token "user" then Some {| role := Js.str "user" |}
  else None.

Definition deps : Deps := {|
  jwt_verify := verify;
  JWT_SECRET := Some "secret";
  ObjectId_generate := N.of_nat;
  pcre_other := fun _ => None;
|}.

Definition no_fields : Fields :=
  {| title := None; genre := None; rating := None; streamingLink := None |}.

Definition dune : Fields :=
  {| title := Some "Dune"; genre := Some "Sci-Fi"; rating := Some (9 # 1)%Q;
     streamingLink := Some "http://x" |}.

Definition empty_world : World :=
  {| docs := ∅; connected := true; constructed := 0 |}.

(** The collection holding [dune] under identifier 0. *)
Definition dune_world : World :=
  {| docs := {[ 0%N := dune ]}; connected := true; constructed := 1 |}.

Definition id0 : string := "000000000000000000000000".

Definition request (m : Method) (p : list string) (auth : option string)
    (q : string) (b : Fields) : Request :=
  {| method := m; path := p; headers_authorization := auth;
     params_id := ""; query_q := q; body := b |}.

End Demo.

(** ** Notions for the further properties *)

(** The requests the route table has a layer for. *)
Inductive Routed : Request -> Prop :=
| routed_list req :
    method req = GET -> path req = ["movies"] -> Routed req
| routed_search req :
    method req = GET -> path req = ["search"] -> Routed req
| routed_add req :
    method req = POST -> path req = ["movies"] -> Routed req
| routed_update req id :
    method req = PUT -> path req = ["movies"; id] -> id <> "" -> Routed req
| routed_delete req id :
    method req = DELETE -> path req = ["movies"; id] -> id <> "" -> Routed req.

(** The same request with another [Authorization] header. *)
Definition with_authorization (req : Request) (a : option string) : Request :=
  {| method := method req; path := path req; headers_authorization := a;
     params_id := params_id req; query_q := query_q req; body := body req |}.

(** The same request with another query. *)
Definition with_query (req : Request) (q : string) : Request :=
  {| method := method req; path := path req;
     headers_authorization := headers_authorization req;
     params_id := params_id req; query_q := q; body := body req |}.

(** A session: requests served one after the other. *)
Fixpoint serve (d : Deps) (reqs : list Request) (w : World) : World :=
  match reqs with
  | [] => w
  | req :: rest => serve d rest (app d req w).2
  end.

(** The request carries a token that verifies with the role [admin]. *)
Definition admin_request (d : Deps) (req : Request) : Prop :=
  exists t decoded,
    token_of (headers_authorization req) = Some t /\ t <> ""
    /\ jwt_verify d t (JWT_SECRET d) = Some decoded
    /\ role decoded = Js.str "admin".

(** Every record of the collection passes the validators of the schema. *)
Definition valid_collection (w : World) : Prop :=
  forall k f, docs w !! k = Some f -> validate MovieSchema f = true.

(** What the validators of [MovieSchema] ask of a document. *)
Definition meets_schema (f : Fields) : Prop :=
  (exists t, title f = Some t /\ t <> "")
  /\ (exists g, genre f = Some g /\ g <> "")
  /\ (exists r, rating f = Some r /\ (0 # 1 <= r)%Q /\ (r <= 10 # 1)%Q)
  /\ (exists s, streamingLink f = Some s /\ s <> "").



(** ** config/DBConfig.ts and server.ts

    The start of the process as the trace of what it does to the outside:
    what it prints, the connection it opens, the port it listens on, the
    exit it takes.  Whether [mongoose.connect] succeeds and whether the
    listener comes up are inputs. *)

Module Startup.

Record Env := {
  MONGO_URI : option string;   (* [process.env.MONGO_URI] *)
  PORT : option string;        (* [process.env.PORT] *)
}.

(** [process.env.PORT || 5000]: a string from the environment, or the
    number 5000. *)
Inductive Port :=
| PortString (s : string)
| PortNumber (n : nat).

Inductive Event :=
| log_connecting (uri : option string)   (* console.log('Connecting ...', uri) *)
| mongoose_connect (uri : option string) (* mongoose.connect(uri) *)
| log_connected                          (* console.log('MongoDB connected ...') *)
| error_connection_failed                (* console.error('MongoDB connection failed:', ...) *)
| process_exit (code : nat)              (* process.exit(code) *)
| app_listen (p : Port)                  (* app.listen(PORT, ...) *)
| log_running (p : Port).                (* console.log(`Server running on port ...`) *)

(** [a || b] on an optional string: [undefined] and [""] are falsy. *)
Definition port_of (e : Env) : Port :=
  match PORT e with
  | Some s => if String.eqb s "" then PortNumber 5000 else PortString s
  | None => PortNumber 5000
  end.

(** [DBConfig.connect()]: the events, and whether the promise resolves
    ([false] when the process has exited instead). *)
Definition connect (e : Env) (connects : bool) : list Event * bool :=
  if connects then
    ([log_connecting (MONGO_URI e); mongoose_connect (MONGO_URI e); log_connected],
     true)
  else
    ([log_connecting (MONGO_URI e); mongoose_connect (MONGO_URI e);
      error_connection_failed; process_exit 1],
     false).

(** [server.ts]: [DBConfig.connect().then(() => app.listen(PORT, ...))]. *)
Definition server (e : Env) (connects listens : bool) : list Event :=
  let port := port_of e in
  let (events, resolved) := connect e connects in
  if resolved then
    (events ++ app_listen port :: (if listens then [log_running port] else []))%list
  else events.

End Startup.

(** * Properties *)

(** ** The admin gate *)

Definition unauthorized : Response := res_status_json 401 (Message "Unauthorized").
Definition forbidden : Response := res_status_json 403 (Message "Forbidden").

Section Gate.
Context (d : Deps).

(** The four outcomes of the gate, by what the token is. *)
Lemma gate_no_token req :
  Js.truthy (token_of (headers_authorization req)) = false ->
  authenticateAdmin d req = Sent unauthorized.
Proof. intros H. unfold authenticateAdmin. by rewrite H. Qed.

Lemma gate_token req t :
  token_of (headers_authorization req) = Some t -> t <> "" ->
  authenticateAdmin d req =
    match jwt_verify d t (JWT_SECRET d) with
    | Some decoded =>
        if Js.strict_ne_string (role decoded) "admin" then Sent forbidden else Next
    | None => Sent unauthorized
    end.
Proof.
  intros Ht Hne. unfold authenticateAdmin. rewrite Ht. simpl.
  apply String.eqb_neq in Hne. by rewrite Hne.
Qed.

Lemma strict_ne_admin v :
  Js.strict_ne_string v "admin" = false <-> v = Js.str "admin".
Proof.
  destruct v; simpl; try (split; [discriminate | discriminate]).
  rewrite negb_false_iff, String.eqb_eq. split; [by intros -> | by intros [= ->]].
Qed.

(** A response of the gate ends the chain: nothing placed after the gate
    runs, and the world is the one the request found. *)
Lemma gate_stops_chain rest req w r :
  authenticateAdmin d req = Sent r ->
  run_chain (gate (authenticateAdmin d) :: rest) req w = (Some r, w).
Proof. intros H. simpl. unfold gate. by rewrite H. Qed.

Lemma gate_passes_chain h req w :
  authenticateAdmin d req = Next ->
  run_chain [gate (authenticateAdmin d); final h] req w
  = (Some (h req w).1, (h req w).2).
Proof.
  intros H. simpl. unfold gate, final. rewrite H. by destruct (h req w).
Qed.

(** The gate reads the [Authorization] header only. *)
Lemma gate_params req id :
  authenticateAdmin d (with_params_id req id) = authenticateAdmin d req.
Proof. reflexivity. Qed.

(** What the application does with a request to a mutating route, in
    terms of the gate. *)
Lemma app_mutating req req' h w :
  MutatingRoute d req req' h ->
  app d req w =
    match authenticateAdmin d req with
    | Sent r => (r, w)
    | Next => h req' w
    end.
Proof.
  intros HR. unfold app.
  destruct HR as [req Hm Hp | req id Hm Hp Hid | req id Hm Hp Hid];
    apply String.eqb_neq in Hid || idtac;
    unfold router, dispatch; rewrite Hm, Hp; simpl; rewrite ?Hid; simpl;
    unfold gate, final; rewrite gate_params;
    destruct (authenticateAdmin d req); try reflexivity.
  - by destruct (addMovie d _ w).
  - by destruct (updateMovie _ w).
  - by destruct (deleteMovie _ w).
Qed.

End Gate.

(** C1. On a mutating route (POST /movies, PUT /movies/:id,
    DELETE /movies/:id): without a token the answer is 401; with a token
    that does not verify it is 401; with a verified token whose role is not
    exactly ["admin"] it is 403; in these three cases the world is left as
    it was and whatever follows the gate in a chain is not run; with a
    verified admin token the answer is the wrapped handler's, and the gate
    lets a request pass in that case only. *)
Theorem C1_admin_gate (d : Deps) (req req' : Request) (h : Handler) (w : World) :
  MutatingRoute d req req' h ->
  let token := token_of (headers_authorization req) in
  (Js.truthy token = false -> app d req w = (unauthorized, w))
  /\ (forall t, token = Some t -> t <> "" ->
        jwt_verify d t (JWT_SECRET d) = None ->
        app d req w = (unauthorized, w))
  /\ (forall t decoded, token = Some t -> t <> "" ->
        jwt_verify d t (JWT_SECRET d) = Some decoded ->
        role decoded <> Js.str "admin" ->
        app d req w = (forbidden, w))
  /\ (forall t decoded, token = Some t -> t <> "" ->
        jwt_verify d t (JWT_SECRET d) = Some decoded ->
        role decoded = Js.str "admin" ->
        app d req w = h req' w)
  /\ (forall r rest, authenticateAdmin d req = Sent r ->
        (status r = 401 \/ status r = 403)
        /\ run_chain (gate (authenticateAdmin d) :: rest) req w = (Some r, w))
  /\ (authenticateAdmin d req = Next ->
      exists t decoded, token = Some t /\ t <> ""
        /\ jwt_verify d t (JWT_SECRET d) = Some decoded
        /\ role decoded = Js.str "admin").
Proof.
  intros HR token. rewrite (app_mutating d req req' h w HR).
  repeat split.
  - intros H. by rewrite gate_no_token.
  - intros t Ht Hne Hv. by rewrite (gate_token d req t Ht Hne), Hv.
  - intros t dec Ht Hne Hv Hrole. rewrite (gate_token d req t Ht Hne), Hv.
    destruct (Js.strict_ne_string (role dec) "admin") eqn:E; [done|].
    by apply strict_ne_admin in E.
  - intros t dec Ht Hne Hv Hrole. rewrite (gate_token d req t Ht Hne), Hv.
    destruct (Js.strict_ne_string (role dec) "admin") eqn:E; [|done].
    apply strict_ne_admin in Hrole. congruence.
  - revert H. unfold authenticateAdmin.
    repeat case_match; intros [= <-]; simpl; auto.
  - by apply gate_stops_chain.
  - unfold authenticateAdmin. fold token.
    destruct token as [t|] eqn:Ht; simpl; [|done].
    destruct (String.eqb t "") eqn:Hne; simpl; [done|].
    destruct (jwt_verify d t (JWT_SECRET d)) as [dec|] eqn:Hv; [|done].
    destruct (Js.strict_ne_string (role dec) "admin") eqn:E; [done|].
    intros _. exists t, dec. apply String.eqb_neq in Hne.
    apply strict_ne_admin in E. done.
Qed.

Lemma C1_admin_gate_witness :
  app Demo.deps (Demo.request DELETE ["movies"; Demo.id0] None "" Demo.no_fields)
      Demo.dune_world
  = (unauthorized, Demo.dune_world)
  /\ app Demo.deps
       (Demo.request DELETE ["movies"; Demo.id0] (Some "Bearer user") "" Demo.no_fields)
       Demo.dune_world
     = (forbidden, Demo.dune_world).
Proof.
  split.
  - pose proof (C1_admin_gate Demo.deps _ _ deleteMovie Demo.dune_world
                  (route_delete Demo.deps
                     (Demo.request DELETE ["movies"; Demo.id0] None "" Demo.no_fields)
                     Demo.id0 eq_refl eq_refl ltac:(done))) as (H & _).
    apply H. reflexivity.
  - pose proof (C1_admin_gate Demo.deps _ _ deleteMovie Demo.dune_world
                  (route_delete Demo.deps
                     (Demo.request DELETE ["movies"; Demo.id0] (Some "Bearer user") ""
                        Demo.no_fields)
                     Demo.id0 eq_refl eq_refl ltac:(done))) as (_ & _ & H & _).
    apply (H "user" {| role := Js.str "user" |}); done.
Defined.

(** ** The token is the second piece of the header *)

Lemma split_no_space a : no_space a -> Js.split " "%char a = [a].
Proof.
  induction a as [|c a IH]; simpl; [done|].
  intros [Hc Ha]. apply Ascii.eqb_neq in Hc. rewrite Hc, (IH Ha). done.
Qed.

Lemma split_first_piece a rest :
  no_space a ->
  Js.split " "%char (a ++ " " ++ rest) = a :: Js.split " "%char rest.
Proof.
  induction a as [|c a IH]; simpl; [done|].
  intros [Hc Ha]. apply Ascii.eqb_neq in Hc. rewrite Hc, (IH Ha). done.
Qed.

Lemma first_space s :
  no_space s \/ exists a rest, no_space a /\ s = a ++ " " ++ rest.
Proof.
  induction s as [|c s IH]; [by left|].
  destruct (decide (c = " "%char)) as [->|Hc].
  - right. exists "", s. done.
  - destruct IH as [Hs | (a & rest & Ha & ->)].
    + left. done.
    + right. exists (String c a), rest. done.
Qed.

Lemma token_of_pieces a t :
  no_space a -> no_space t -> token_of (Some (a ++ " " ++ t)) = Some t.
Proof.
  intros Ha Ht. unfold token_of.
  by rewrite (split_first_piece a t Ha), (split_no_space t Ht).
Qed.

Lemma token_of_pieces_more a t rest :
  no_space a -> no_space t ->
  token_of (Some (a ++ " " ++ t ++ " " ++ rest)) = Some t.
Proof.
  intros Ha Ht. unfold token_of.
  by rewrite (split_first_piece a _ Ha), (split_first_piece t rest Ht).
Qed.

Lemma token_of_one_piece a : no_space a -> token_of (Some a) = None.
Proof. intros Ha. unfold token_of. by rewrite (split_no_space a Ha). Qed.

(** C2, as the code has it.  The header is cut at every space and the
    token is the second piece, whatever the first piece is: for
    [scheme ++ " " ++ t], optionally followed by a space and more text, the
    token is [t] (so for ["Bearer " ++ t] it is [t] when [t] has no
    space).  Every header has one of these shapes or has no space at all.
    An absent header, a header without a space and a header whose second
    piece is empty are answered 401; otherwise the answer is decided by
    verifying the second piece alone. *)
Theorem C2_token_is_second_piece (d : Deps) (req : Request) :
  (forall scheme t, no_space scheme -> no_space t ->
     token_of (Some (scheme ++ " " ++ t)) = Some t)
  /\ (forall scheme t rest, no_space scheme -> no_space t ->
        token_of (Some (scheme ++ " " ++ t ++ " " ++ rest)) = Some t)
  /\ (forall h, no_space h -> token_of (Some h) = None)
  /\ (forall h,
        no_space h
        \/ exists scheme t, no_space scheme /\ no_space t
             /\ (h = scheme ++ " " ++ t
                 \/ exists rest, h = scheme ++ " " ++ t ++ " " ++ rest))
  /\ (token_of (headers_authorization req) = None
      \/ token_of (headers_authorization req) = Some "" ->
      authenticateAdmin d req = Sent unauthorized)
  /\ (forall t, token_of (headers_authorization req) = Some t -> t <> "" ->
        authenticateAdmin d req =
          match jwt_verify d t (JWT_SECRET d) with
          | Some decoded =>
              if Js.strict_ne_string (role decoded) "admin"
              then Sent forbidden else Next
          | None => Sent unauthorized
          end).
Proof.
  split; [exact token_of_pieces|].
  split; [exact token_of_pieces_more|].
  split; [exact token_of_one_piece|].
  split.
  { intros h. destruct (first_space h) as [Hh | (a & r & Ha & ->)]; [by left|].
    right. destruct (first_space r) as [Hr | (t & rest & Ht & ->)].
    - exists a, r. auto.
    - exists a, t. split; [done|]. split; [done|]. right. by exists rest. }
  split.
  - intros H. apply gate_no_token. by destruct H as [-> | ->].
  - intros t Ht Hne. by apply gate_token.
Qed.

Lemma C2_token_is_second_piece_witness :
  token_of (Some "Bearer good") = Some "good"
  /\ token_of (Some "Bearer good extra") = Some "good"
  /\ token_of (Some "good") = None.
Proof.
  pose proof (C2_token_is_second_piece Demo.deps
                (Demo.request POST ["movies"] None "" Demo.dune))
    as (H1 & H2 & H3 & _).
  split; [|split].
  - apply (H1 "Bearer" "good"); simpl; intuition discriminate.
  - apply (H2 "Bearer" "good" "extra"); simpl; intuition discriminate.
  - apply (H3 "good"); simpl; intuition discriminate.
Defined.

(** C2, as stated, fails: a header with another scheme is not of the form
    ["Bearer " ++ t], and yet its second piece is verified and, being an
    admin token, lets the request through to the handler. *)
Lemma C2_other_scheme_is_accepted :
  (forall t, "Basic good" <> "Bearer " ++ t)
  /\ authenticateAdmin Demo.deps
       (Demo.request POST ["movies"] (Some "Basic good") "" Demo.dune) = Next
  /\ (app Demo.deps (Demo.request POST ["movies"] (Some "Basic good") "" Demo.dune)
        Demo.empty_world).1
     = res_status_json 201 (OneMovie {| _id := 0%N; doc := Demo.dune |}).
Proof.
  split; [intros t; discriminate|]. split; [reflexivity|]. vm_compute. reflexivity.
Qed.

(** ** The collection and its listing *)

Lemma with_docs_same w : with_docs w (docs w) = w.
Proof. by destruct w. Qed.

Lemma elem_of_all_movies w m :
  m ∈ all_movies w <-> docs w !! _id m = Some (doc m).
Proof.
  unfold all_movies. rewrite list_elem_of_fmap. split.
  - intros ([k v] & -> & H). simpl. by apply elem_of_map_to_list in H.
  - intros H. exists (_id m, doc m). split; [by destruct m|].
    by apply elem_of_map_to_list.
Qed.

Lemma all_movies_ids w : _id <$> all_movies w = (map_to_list (docs w)).*1.
Proof.
  unfold all_movies. rewrite <- list_fmap_compose. by apply list_fmap_ext.
Qed.

Lemma NoDup_all_movies_ids w : NoDup (_id <$> all_movies w).
Proof. rewrite all_movies_ids. apply NoDup_fst_map_to_list. Qed.

(** ** Updates *)

Lemma apply_set_empty upd cur :
  Movie.is_empty_update upd = true -> Movie.apply_set upd cur = cur.
Proof.
  destruct upd as [[?|] [?|] [?|] [?|]]; try discriminate. by destruct cur.
Qed.

Lemma apply_set_twice upd cur :
  Movie.apply_set upd (Movie.apply_set upd cur) = Movie.apply_set upd cur.
Proof. by destruct upd as [[?|] [?|] [?|] [?|]]. Qed.

(** What [findByIdAndUpdate] does when the identifier casts, the server
    answers and the document is there. *)
Lemma findByIdAndUpdate_found id oid upd cur w :
  castObjectId id = Some oid -> connected w = true -> docs w !! oid = Some cur ->
  Movie.findByIdAndUpdate id upd w
  = (Resolved (Some {| _id := oid; doc := Movie.apply_set upd cur |}),
     with_docs w (<[oid := Movie.apply_set upd cur]> (docs w))).
Proof.
  intros Hc Hw Hd. unfold Movie.findByIdAndUpdate. rewrite Hc, Hw, Hd. simpl.
  destruct (Movie.is_empty_update upd) eqn:E; [|done].
  rewrite (apply_set_empty _ _ E), (insert_id _ _ _ Hd), with_docs_same. done.
Qed.

Lemma updateMovie_found req oid cur w :
  castObjectId (params_id req) = Some oid -> connected w = true ->
  docs w !! oid = Some cur ->
  updateMovie req w
  = (res_json (OneMovie {| _id := oid; doc := Movie.apply_set (body req) cur |}),
     with_docs w (<[oid := Movie.apply_set (body req) cur]> (docs w))).
Proof.
  intros Hc Hw Hd. unfold updateMovie.
  by rewrite (findByIdAndUpdate_found _ oid _ cur w Hc Hw Hd).
Qed.

Lemma updateMovie_missing req oid w :
  castObjectId (params_id req) = Some oid -> connected w = true ->
  docs w !! oid = None ->
  updateMovie req w = (res_status_json 404 (Message "Movie not found"), w).
Proof.
  intros Hc Hw Hd. unfold updateMovie, Movie.findByIdAndUpdate.
  by rewrite Hc, Hw, Hd.
Qed.

(** C3, on the code.  The rating 11 violates the schema ([validate] rejects
    the resulting record), yet [updateMovie] answers 200 with the record
    carrying it and the collection now holds it: the update runs no
    validator.  The same rating is refused by [addMovie]. *)
Theorem C3_update_skips_validation :
  let req := Demo.request PUT ["movies"; Demo.id0] (Some "Bearer good") ""
               {| title := None; genre := None; rating := Some (11 # 1)%Q;
                  streamingLink := None |} in
  let bad := {| title := Some "Dune"; genre := Some "Sci-Fi";
                rating := Some (11 # 1)%Q; streamingLink := Some "http://x" |} in
  (app Demo.deps req Demo.dune_world).1
    = res_json (OneMovie {| _id := 0%N; doc := bad |})
  /\ docs (app Demo.deps req Demo.dune_world).2 !! 0%N = Some bad
  /\ validate MovieSchema bad = false
  /\ (app Demo.deps
        (Demo.request POST ["movies"] (Some "Bearer good") "" bad)
        Demo.dune_world).1
     = res_status_json 400 (Message "Invalid data").
Proof. vm_compute. repeat split; reflexivity. Qed.

(** C7. For an existing identifier and a partial update [p], the first
    [updateMovie] answers 200 with the updated record: the record of that
    identifier in which each field present in [p] has the value [p] gives
    and each field absent from [p] has the value it had.  A second
    [updateMovie] with the same request leaves the world as the first one
    made it and answers the same, so [listMovies] shows the same records
    after one or two applications.  The listing after the update shows
    the updated record, shows no other record under that identifier, and
    shows every other record exactly as before. *)
Theorem C7_update_idempotent (req other : Request) (oid : ObjectId)
    (cur : Fields) (w : World) :
  castObjectId (params_id req) = Some oid ->
  connected w = true ->
  docs w !! oid = Some cur ->
  let once := (updateMovie req w).2 in
  let twice := (updateMovie req once).2 in
  exists updated : IMovie,
    _id updated = oid
    /\ (forall v, title (body req) = Some v -> title (doc updated) = Some v)
    /\ (forall v, genre (body req) = Some v -> genre (doc updated) = Some v)
    /\ (forall v, rating (body req) = Some v -> rating (doc updated) = Some v)
    /\ (forall v, streamingLink (body req) = Some v ->
                  streamingLink (doc updated) = Some v)
    /\ (title (body req) = None -> title (doc updated) = title cur)
    /\ (genre (body req) = None -> genre (doc updated) = genre cur)
    /\ (rating (body req) = None -> rating (doc updated) = rating cur)
    /\ (streamingLink (body req) = None ->
        streamingLink (doc updated) = streamingLink cur)
    /\ (updateMovie req w).1 = res_json (OneMovie updated)
    /\ twice = once
    /\ (updateMovie req once).1 = (updateMovie req w).1
    /\ listMovies other twice = listMovies other once
    /\ (listMovies other once).1 = res_json (Movies (all_movies once))
    /\ updated ∈ all_movies once
    /\ (forall m, m ∈ all_movies once -> _id m = oid -> m = updated)
    /\ NoDup (_id <$> all_movies once)
    /\ (forall m, _id m <> oid -> m ∈ all_movies once <-> m ∈ all_movies w).
Proof.
  intros Hc Hw Hd once twice.
  set (updated := {| _id := oid; doc := Movie.apply_set (body req) cur |}).
  exists updated.
  assert (Hfirst : updateMovie req w
                   = (res_json (OneMovie updated),
                      with_docs w (<[oid := doc updated]> (docs w)))).
  { by rewrite (updateMovie_found req oid cur w Hc Hw Hd). }
  assert (Honce : once = with_docs w (<[oid := doc updated]> (docs w))).
  { unfold once. by rewrite Hfirst. }
  assert (Hlook : docs once !! oid = Some (doc updated)).
  { rewrite Honce. simpl. apply lookup_insert_eq. }
  assert (Hconn : connected once = true) by (by rewrite Honce).
  assert (Hsecond : updateMovie req once = (res_json (OneMovie updated), once)).
  { rewrite (updateMovie_found req oid _ once Hc Hconn Hlook). simpl.
    rewrite apply_set_twice. f_equal.
    rewrite (insert_id _ _ _ Hlook). apply with_docs_same. }
  assert (Htwice : twice = once) by (unfold twice; by rewrite Hsecond).
  split; [done|].
  do 4 (split; [by intros v Hv; simpl; rewrite Hv|]).
  do 4 (split; [by intros Hv; simpl; rewrite Hv|]).
  split; [by rewrite Hfirst|]. split; [done|].
  split; [by rewrite Hsecond, Hfirst|].
  split; [by rewrite Htwice|]. split.
  { unfold listMovies, Movie.find. by rewrite Hconn. }
  split; [by apply elem_of_all_movies|]. split.
  { intros m Hm Hid. apply elem_of_all_movies in Hm. rewrite Hid, Hlook in Hm.
    destruct m; simpl in *. unfold updated. congruence. }
  split; [apply NoDup_all_movies_ids|].
  intros m Hm. rewrite !elem_of_all_movies, Honce. simpl.
  by rewrite lookup_insert_ne.
Qed.

Lemma C7_update_idempotent_witness :
  let req := with_params_id
               (Demo.request PUT ["movies"; Demo.id0] (Some "Bearer good") ""
                  {| title := Some "Dune II"; genre := None; rating := None;
                     streamingLink := None |}) Demo.id0 in
  exists updated,
    title (doc updated) = Some "Dune II"
    /\ genre (doc updated) = Some "Sci-Fi"
    /\ (updateMovie req (updateMovie req Demo.dune_world).2).2
       = (updateMovie req Demo.dune_world).2.
Proof.
  intros req.
  destruct (C7_update_idempotent req req 0%N Demo.dune Demo.dune_world
              eq_refl eq_refl eq_refl)
    as (updated & _ & Ht & _ & _ & _ & _ & Hg & _ & _ & _ & Htwice & _).
  exists updated. split; [by apply Ht|]. split; [by apply Hg|]. exact Htwice.
Defined.

(** C9. When the identifier of the path cannot be cast, the lookup throws:
    [updateMovie] answers 400 "Invalid data", [deleteMovie] answers
    500 "Server error", neither answers 404, and the world is untouched. *)
Theorem C9_malformed_id (req : Request) (w : World) :
  castObjectId (params_id req) = None ->
  updateMovie req w = (res_status_json 400 (Message "Invalid data"), w)
  /\ deleteMovie req w = (res_status_json 500 (Message "Server error"), w)
  /\ status (updateMovie req w).1 <> 404
  /\ status (deleteMovie req w).1 <> 404.
Proof.
  intros Hc. unfold updateMovie, deleteMovie, Movie.findByIdAndUpdate,
    Movie.findByIdAndDelete. rewrite Hc. simpl.
  repeat split; done.
Qed.

Lemma C9_malformed_id_witness :
  updateMovie (with_params_id
                 (Demo.request PUT ["movies"; "not-an-id"] (Some "Bearer good") ""
                    Demo.dune) "not-an-id") Demo.dune_world
  = (res_status_json 400 (Message "Invalid data"), Demo.dune_world)
  /\ deleteMovie (with_params_id
                    (Demo.request PUT ["movies"; "not-an-id"] (Some "Bearer good") ""
                       Demo.dune) "not-an-id") Demo.dune_world
     = (res_status_json 500 (Message "Server error"), Demo.dune_world).
Proof.
  pose proof (C9_malformed_id
                (with_params_id
                   (Demo.request PUT ["movies"; "not-an-id"] (Some "Bearer good") ""
                      Demo.dune) "not-an-id") Demo.dune_world eq_refl)
    as (H1 & H2 & _).
  split; assumption.
Defined.

(** C10. A successful [updateMovie] on an existing record answers 200 with
    the record after the update; on that record each field present in the
    body takes the body's value and each field absent from it keeps its
    value; every other record is as it was; with an empty body the record
    is returned as it was and the world does not change. *)
Theorem C10_update_frame (req : Request) (oid : ObjectId) (cur : Fields)
    (w : World) :
  castObjectId (params_id req) = Some oid ->
  connected w = true ->
  docs w !! oid = Some cur ->
  exists new,
    updateMovie req w
    = (res_json (OneMovie {| _id := oid; doc := new |}),
       with_docs w (<[oid := new]> (docs w)))
    /\ docs (updateMovie req w).2 !! oid = Some new
    /\ (forall v, title (body req) = Some v -> title new = Some v)
    /\ (forall v, genre (body req) = Some v -> genre new = Some v)
    /\ (forall v, rating (body req) = Some v -> rating new = Some v)
    /\ (forall v, streamingLink (body req) = Some v -> streamingLink new = Some v)
    /\ (title (body req) = None -> title new = title cur)
    /\ (genre (body req) = None -> genre new = genre cur)
    /\ (rating (body req) = None -> rating new = rating cur)
    /\ (streamingLink (body req) = None -> streamingLink new = streamingLink cur)
    /\ (forall k, k <> oid -> docs (updateMovie req w).2 !! k = docs w !! k)
    /\ (Movie.is_empty_update (body req) = true ->
          new = cur /\ (updateMovie req w).2 = w).
Proof.
  intros Hc Hw Hd. exists (Movie.apply_set (body req) cur).
  rewrite (updateMovie_found req oid cur w Hc Hw Hd). simpl.
  split; [done|]. split; [apply lookup_insert_eq|].
  repeat split; try (intros v ->; reflexivity); try (intros ->; reflexivity).
  - intros k Hk. by apply lookup_insert_ne.
  - by apply apply_set_empty.
  - rewrite (apply_set_empty _ _ H), (insert_id _ _ _ Hd). apply with_docs_same.
Qed.

Lemma C10_update_frame_witness :
  exists new,
    updateMovie (with_params_id
                   (Demo.request PUT ["movies"; Demo.id0] (Some "Bearer good") ""
                      Demo.no_fields) Demo.id0) Demo.dune_world
    = (res_json (OneMovie {| _id := 0%N; doc := new |}),
       with_docs Demo.dune_world (<[0%N := new]> (docs Demo.dune_world)))
    /\ new = Demo.dune.
Proof.
  destruct (C10_update_frame
              (with_params_id
                 (Demo.request PUT ["movies"; Demo.id0] (Some "Bearer good") ""
                    Demo.no_fields) Demo.id0)
              0%N Demo.dune Demo.dune_world eq_refl eq_refl eq_refl)
    as (new & H1 & _ & _ & _ & _ & _ & _ & _ & _ & _ & _ & H).
  exists new. split; [exact H1|]. by apply H.
Defined.

(** ** Deletion *)

(** C8, as the code has it.  [deleteMovie] on an identifier the store can
    look up (one that casts, the server answering): when the record
    exists it is removed (it is no longer found nor listed, the other
    records stay, and deleting again answers 404) and the answer is 200
    with a confirmation message; when no record exists the answer is 404.
    When the lookup fails (the server does not answer, or the identifier
    cannot be cast) the answer is 500.  In the last two cases the world is
    untouched. *)
Theorem C8_delete (req : Request) (w : World) :
  (forall oid cur,
      castObjectId (params_id req) = Some oid -> connected w = true ->
      docs w !! oid = Some cur ->
      let w' := (deleteMovie req w).2 in
      deleteMovie req w
      = (res_json (Message "Movie deleted successfully"),
         with_docs w (delete oid (docs w)))
      /\ docs w' !! oid = None
      /\ (forall m, m ∈ all_movies w' -> _id m <> oid)
      /\ (forall k, k <> oid -> docs w' !! k = docs w !! k)
      /\ deleteMovie req w'
         = (res_status_json 404 (Message "Movie not found"), w'))
  /\ (forall oid,
        castObjectId (params_id req) = Some oid -> connected w = true ->
        docs w !! oid = None ->
        deleteMovie req w = (res_status_json 404 (Message "Movie not found"), w))
  /\ (connected w = false \/ castObjectId (params_id req) = None ->
      deleteMovie req w = (res_status_json 500 (Message "Server error"), w)).
Proof.
  split; [|split].
  - intros oid cur Hc Hw Hd w'.
    assert (E : deleteMovie req w
                = (res_json (Message "Movie deleted successfully"),
                   with_docs w (delete oid (docs w)))).
    { unfold deleteMovie, Movie.findByIdAndDelete. by rewrite Hc, Hw, Hd. }
    unfold w'. rewrite E. simpl.
    split; [done|]. split; [apply lookup_delete_eq|]. split; [|split].
    + intros m Hm Hid. apply elem_of_all_movies in Hm. simpl in Hm.
      by rewrite Hid, lookup_delete_eq in Hm.
    + intros k Hk. by apply lookup_delete_ne.
    + unfold deleteMovie, Movie.findByIdAndDelete. rewrite Hc. simpl.
      by rewrite Hw, lookup_delete_eq.
  - intros oid Hc Hw Hd. unfold deleteMovie, Movie.findByIdAndDelete.
    by rewrite Hc, Hw, Hd.
  - intros [Hw | Hc]; unfold deleteMovie, Movie.findByIdAndDelete.
    + rewrite Hw. by destruct (castObjectId (params_id req)).
    + by rewrite Hc.
Qed.

Lemma C8_delete_witness :
  let req := with_params_id
               (Demo.request DELETE ["movies"; Demo.id0] (Some "Bearer good") ""
                  Demo.no_fields) Demo.id0 in
  deleteMovie req Demo.dune_world
  = (res_json (Message "Movie deleted successfully"),
     with_docs Demo.dune_world (delete 0%N (docs Demo.dune_world)))
  /\ deleteMovie req Demo.empty_world
     = (res_status_json 404 (Message "Movie not found"), Demo.empty_world).
Proof.
  intros req. split.
  - pose proof (C8_delete req Demo.dune_world) as (H & _).
    apply (H 0%N Demo.dune); reflexivity.
  - pose proof (C8_delete req Demo.empty_world) as (_ & H & _).
    apply (H 0%N); reflexivity.
Defined.

(** C8, as stated, fails: no record has the identifier [not-an-id] (the
    collection is empty), and [deleteMovie] answers 500, not 404, because
    the identifier cannot be cast and the lookup throws. *)
Lemma C8_malformed_id_is_not_404 :
  let req := Demo.request DELETE ["movies"; "not-an-id"] (Some "Bearer good") ""
               Demo.no_fields in
  (forall oid, docs Demo.empty_world !! oid = None)
  /\ all_movies Demo.empty_world = []
  /\ deleteMovie (with_params_id req "not-an-id") Demo.empty_world
     = (res_status_json 500 (Message "Server error"), Demo.empty_world)
  /\ app Demo.deps req Demo.empty_world
     = (res_status_json 500 (Message "Server error"), Demo.empty_world)
  /\ status (app Demo.deps req Demo.empty_world).1 <> 404.
Proof.
  intros req. split; [intros oid; apply lookup_empty|].
  split; [reflexivity|]. split; [reflexivity|]. split; [reflexivity|].
  vm_compute. discriminate.
Qed.

(** ** Creation *)

Lemma addMovie_eq d req w :
  addMovie d req w =
    let m := {| _id := ObjectId_generate d (constructed w); doc := body req |} in
    let w1 := with_constructed w (S (constructed w)) in
    match Movie.save m w1 with
    | (Resolved _, w2) => (res_status_json 201 (OneMovie m), w2)
    | (Rejected _, w2) => (res_status_json 400 (Message "Invalid data"), w2)
    end.
Proof. unfold addMovie, Movie.new. by destruct (body req). Qed.

Lemma addMovie_invalid d req w :
  validate MovieSchema (body req) = false ->
  addMovie d req w
  = (res_status_json 400 (Message "Invalid data"),
     with_constructed w (S (constructed w))).
Proof.
  intros Hv. rewrite addMovie_eq. simpl. unfold Movie.save. simpl. by rewrite Hv.
Qed.

Lemma check_string_required_ok v :
  check_string {| s_required := true |} v = true
  <-> exists s, v = Some s /\ s <> "".
Proof.
  destruct v as [s|]; simpl.
  - rewrite negb_true_iff, String.eqb_neq. split; [eauto|]. by intros (? & [= <-] & ?).
  - split; [done|]. by intros (? & ? & ?).
Qed.

Lemma check_rating_ok v :
  check_number (path_rating MovieSchema) v = true
  <-> exists r, v = Some r /\ (0 # 1 <= r)%Q /\ (r <= 10 # 1)%Q.
Proof.
  destruct v as [r|]; simpl.
  - rewrite andb_true_iff, !Qle_bool_iff. split; [eauto|].
    by intros (? & [= <-] & ?).
  - split; [done|]. by intros (? & ? & ?).
Qed.

Lemma validate_MovieSchema f :
  validate MovieSchema f = true
  <-> (exists t, title f = Some t /\ t <> "")
      /\ (exists g, genre f = Some g /\ g <> "")
      /\ (exists r, rating f = Some r /\ (0 # 1 <= r)%Q /\ (r <= 10 # 1)%Q)
      /\ (exists s, streamingLink f = Some s /\ s <> "").
Proof.
  unfold validate. rewrite !andb_true_iff. simpl path_title. simpl path_genre.
  simpl path_streamingLink.
  rewrite !check_string_required_ok, check_rating_ok. tauto.
Qed.

(** C6. A payload that lacks one of the four required fields, or whose
    rating is below 0 or above 10, is answered 400 "Invalid data", and the
    collection is what it was: nothing is persisted. *)
Theorem C6_add_invalid (d : Deps) (req : Request) (w : World) :
  title (body req) = None \/ genre (body req) = None
  \/ rating (body req) = None \/ streamingLink (body req) = None
  \/ (exists r, rating (body req) = Some r /\ (r < 0 # 1 \/ 10 # 1 < r)%Q) ->
  (addMovie d req w).1 = res_status_json 400 (Message "Invalid data")
  /\ docs (addMovie d req w).2 = docs w
  /\ connected (addMovie d req w).2 = connected w
  /\ all_movies (addMovie d req w).2 = all_movies w.
Proof.
  intros H.
  assert (Hv : validate MovieSchema (body req) = false).
  { apply not_true_is_false. rewrite validate_MovieSchema.
    intros ((t & Ht & _) & (g & Hg & _) & (r & Hr & Hlo & Hhi) & (s & Hs & _)).
    destruct H as [H | [H | [H | [H | (r' & Hr' & Hout)]]]]; try congruence.
    assert (r' = r) as -> by congruence.
    destruct Hout as [Hlt | Hlt]; eapply Qlt_not_le; eauto. }
  rewrite (addMovie_invalid d req w Hv). done.
Qed.

Lemma C6_add_invalid_witness :
  (addMovie Demo.deps
     (Demo.request POST ["movies"] (Some "Bearer good") ""
        {| title := Some "Dune"; genre := Some "Sci-Fi"; rating := Some (11 # 1)%Q;
           streamingLink := Some "http://x" |})
     Demo.dune_world).1
  = res_status_json 400 (Message "Invalid data").
Proof.
  apply (C6_add_invalid Demo.deps).
  do 4 right. exists (11 # 1)%Q. split; [reflexivity|]. right. reflexivity.
Defined.

(** C5, as the code has it.  When the four fields are present, the three
    strings are not empty, the rating lies in [0,10], the server answers
    and the identifier given to the new document is not in use,
    [addMovie] answers 201 with a record whose four fields are the
    payload's, and the collection holds that record. *)
Theorem C5_add_valid (d : Deps) (req : Request) (w : World)
    (t g s : string) (r : Q) :
  title (body req) = Some t -> genre (body req) = Some g ->
  rating (body req) = Some r -> streamingLink (body req) = Some s ->
  t <> "" -> g <> "" -> s <> "" ->
  (0 # 1 <= r)%Q -> (r <= 10 # 1)%Q ->
  connected w = true ->
  docs w !! ObjectId_generate d (constructed w) = None ->
  exists created,
    (addMovie d req w).1 = res_status_json 201 (OneMovie created)
    /\ title (doc created) = Some t /\ genre (doc created) = Some g
    /\ rating (doc created) = Some r /\ streamingLink (doc created) = Some s
    /\ docs (addMovie d req w).2 = <[_id created := doc created]> (docs w)
    /\ created ∈ all_movies (addMovie d req w).2.
Proof.
  intros Ht Hg Hr Hs Hte Hge Hse Hlo Hhi Hw Hfresh.
  exists {| _id := ObjectId_generate d (constructed w); doc := body req |}.
  assert (Hv : validate MovieSchema (body req) = true).
  { apply validate_MovieSchema.
    split; [by exists t|]. split; [by exists g|].
    split; [by exists r|]. by exists s. }
  rewrite addMovie_eq. simpl. unfold Movie.save. simpl.
  rewrite Hv, Hw, Hfresh. simpl.
  repeat split; try done.
  apply elem_of_all_movies. simpl. apply lookup_insert_eq.
Qed.

Lemma C5_add_valid_witness :
  exists created,
    (addMovie Demo.deps
       (Demo.request POST ["movies"] (Some "Bearer good") "" Demo.dune)
       Demo.empty_world).1
    = res_status_json 201 (OneMovie created)
    /\ title (doc created) = Some "Dune".
Proof.
  destruct (C5_add_valid Demo.deps
              (Demo.request POST ["movies"] (Some "Bearer good") "" Demo.dune)
              Demo.empty_world "Dune" "Sci-Fi" "http://x" (9 # 1)%Q
              eq_refl eq_refl eq_refl eq_refl
              ltac:(discriminate) ltac:(discriminate) ltac:(discriminate)
              ltac:(discriminate) ltac:(discriminate) eq_refl eq_refl)
    as (created & H1 & H2 & _).
  exists created. split; assumption.
Defined.

(** C5, as stated, fails: the four fields are present and the rating is in
    range, but the title is the empty string, which [required] rejects.
    The same answer is given to a payload that passes every validator when
    the server cannot be reached. *)
Lemma C5_empty_title_is_rejected :
  let payload := {| title := Some ""; genre := Some "Sci-Fi";
                    rating := Some (9 # 1)%Q; streamingLink := Some "http://x" |} in
  let offline := {| docs := ∅; connected := false; constructed := 0 |} in
  is_Some (title payload) /\ is_Some (genre payload)
  /\ is_Some (streamingLink payload)
  /\ (exists r, rating payload = Some r /\ (0 # 1 <= r)%Q /\ (r <= 10 # 1)%Q)
  /\ (addMovie Demo.deps
        (Demo.request POST ["movies"] (Some "Bearer good") "" payload)
        Demo.empty_world).1
     = res_status_json 400 (Message "Invalid data")
  /\ (app Demo.deps
        (Demo.request POST ["movies"] (Some "Bearer good") "" payload)
        Demo.empty_world).1
     = res_status_json 400 (Message "Invalid data")
  /\ (addMovie Demo.deps
        (Demo.request POST ["movies"] (Some "Bearer good") "" Demo.dune)
        offline).1
     = res_status_json 400 (Message "Invalid data").
Proof.
  intros payload offline. split; [by eexists|]. split; [by eexists|].
  split; [by eexists|]. split.
  - exists (9 # 1)%Q. repeat split; discriminate.
  - repeat split; reflexivity.
Qed.

(** ** Search *)

Lemma is_plain_not_special c :
  Regex.is_plain c = true ->
  Ascii.eqb c "."%char = false /\ Ascii.eqb c "\"%char = false.
Proof.
  intros H. split; apply not_true_is_false; intros E; apply Ascii.eqb_eq in E;
    subst c; discriminate.
Qed.

(** A plain query is parsed into its characters. *)
Lemma parse_plain_query x :
  plain_query x -> Regex.parse_plain x = Some (literal_atoms x).
Proof.
  induction x as [|c x IH]; simpl; [done|].
  intros [Hc Hx]. destruct (is_plain_not_special c Hc) as [-> ->].
  by rewrite Hc, (IH Hx).
Qed.

(** The atoms of a query match a prefix of the subject exactly when the
    lower-cased subject starts with the lower-cased query. *)
Lemma match_here_literal x s :
  Regex.match_here (literal_atoms x) s = true
  <-> exists post, lower s = lower x ++ post.
Proof.
  revert s. induction x as [|c x IH]; intros s; simpl.
  - split; [|done]. intros _. by exists (lower s).
  - destruct s as [|a s]; simpl.
    + split; [done|]. by intros (? & ?).
    + rewrite andb_true_iff, Ascii.eqb_eq, IH. split.
      * intros (-> & post & ->). by exists post.
      * intros (post & [= -> ->]). split; [done|]. by exists post.
Qed.

Lemma search_literal x s :
  Regex.search (literal_atoms x) s = true <-> contains_ci x s.
Proof.
  unfold contains_ci. induction s as [|a s IH]; simpl.
  - rewrite orb_false_r, match_here_literal. simpl. split.
    + intros (post & H). by exists "", post.
    + intros ([|? pre] & post & H); [by exists post | discriminate].
  - rewrite orb_true_iff, IH, match_here_literal. simpl. split.
    + intros [(post & H) | (pre & post & H)].
      * by exists "", post.
      * exists (String (Regex.to_lower a) pre), post. simpl. by rewrite H.
    + intros ([|b pre] & post & H).
      * left. by exists post.
      * right. simpl in H. injection H as _ H. by exists pre, post.
Qed.

Lemma path_matches_literal x v :
  Movie.path_matches (Regex.search (literal_atoms x)) v = true
  <-> exists t, v = Some t /\ contains_ci x t.
Proof.
  destruct v as [t|]; simpl.
  - rewrite search_literal. split; [eauto|]. by intros (? & [= <-] & ?).
  - split; [done|]. by intros (? & ? & ?).
Qed.

Lemma contains_ci_empty s : contains_ci "" s.
Proof. by exists "", (lower s). Qed.

(** C4, as the code has it.  The query is the pattern of a regular
    expression.  When it is made of ordinary characters only (and the
    server answers), [searchMovies] answers 200 with exactly the records
    whose title or genre contains it as a case-insensitive substring, in
    store order, and changes nothing; the empty query finds every record
    that has a title or a genre. *)
Theorem C4_search_plain_query (d : Deps) (req : Request) (w : World) :
  connected w = true ->
  plain_query (query_q req) ->
  exists found,
    searchMovies d req w = (res_json (Movies found), w)
    /\ found `sublist_of` all_movies w
    /\ (forall m, m ∈ found <->
                  m ∈ all_movies w /\ title_or_genre_contains (query_q req) m)
    /\ (query_q req = "" ->
        forall m, m ∈ all_movies w ->
                  is_Some (title (doc m)) \/ is_Some (genre (doc m)) ->
                  m ∈ found).
Proof.
  intros Hw Hq. unfold searchMovies, Movie.find_title_or_genre, Regex.compile_i.
  rewrite Hw, (parse_plain_query _ Hq). simpl.
  eexists. split; [reflexivity|].
  assert (Hmem : forall m,
             m ∈ filter (fun m => Movie.path_matches
                                    (Regex.search (literal_atoms (query_q req)))
                                    (title (doc m))
                                  || Movie.path_matches
                                       (Regex.search (literal_atoms (query_q req)))
                                       (genre (doc m)))
                   (all_movies w)
             <-> m ∈ all_movies w /\ title_or_genre_contains (query_q req) m).
  { intros m. rewrite list_elem_of_filter, Is_true_true, orb_true_iff,
      !path_matches_literal. unfold title_or_genre_contains. tauto. }
  split; [apply sublist_filter|]. split; [exact Hmem|].
  intros Hempty m Hm Hsome. apply Hmem. split; [done|].
  unfold title_or_genre_contains. rewrite Hempty.
  destruct Hsome as [[t Ht] | [g Hg]]; [left | right]; eexists;
    (split; [eassumption | apply contains_ci_empty]).
Qed.

Lemma C4_search_plain_query_witness :
  exists found,
    searchMovies Demo.deps (Demo.request GET ["search"] None "dUn" Demo.no_fields)
      Demo.dune_world
    = (res_json (Movies found), Demo.dune_world)
    /\ found `sublist_of` all_movies Demo.dune_world.
Proof.
  destruct (C4_search_plain_query Demo.deps
              (Demo.request GET ["search"] None "dUn" Demo.no_fields)
              Demo.dune_world eq_refl)
    as (found & H1 & H2 & _).
  - simpl. repeat split; reflexivity.
  - exists found. split; assumption.
Defined.

(** C4, as stated, fails: the query ["."] occurs neither in the title nor
    in the genre of the stored record, and yet the record is found, because
    the dot of a pattern stands for any character. *)
Lemma C4_dot_finds_every_record :
  let m := {| _id := 0%N; doc := Demo.dune |} in
  all_movies Demo.dune_world = [m]
  /\ ~ title_or_genre_contains "." m
  /\ searchMovies Demo.deps (Demo.request GET ["search"] None "." Demo.no_fields)
       Demo.dune_world
     = (res_json (Movies [m]), Demo.dune_world).
Proof.
  intros m. split; [by vm_compute|]. split; [|by vm_compute].
  intros [(t & [= <-] & H) | (g & [= <-] & H)];
    apply search_literal in H; discriminate.
Qed.

(** ** A whole session

    Create a record with an admin token, list it, delete it, list again,
    delete again. *)
Example end_to_end :
  let admin := Some "Bearer good" in
  let post := Demo.request POST ["movies"] admin "" Demo.dune in
  let get := Demo.request GET ["movies"] None "" Demo.no_fields in
  let del := Demo.request DELETE ["movies"; Demo.id0] admin "" Demo.no_fields in
  let created := {| _id := 0%N; doc := Demo.dune |} in
  let (r1, w1) := app Demo.deps post Demo.empty_world in
  let (r2, w2) := app Demo.deps get w1 in
  let (r3, w3) := app Demo.deps del w2 in
  let (r4, w4) := app Demo.deps get w3 in
  let (r5, w5) := app Demo.deps del w4 in
  r1 = res_status_json 201 (OneMovie created)
  /\ r2 = res_json (Movies [created])
  /\ r3 = res_json (Message "Movie deleted successfully")
  /\ r4 = res_json (Movies [])
  /\ r5 = res_status_json 404 (Message "Movie not found").
Proof. vm_compute. repeat split; reflexivity. Qed.

(** * Further properties of the application *)

(** ** The route table *)

Lemma listMovies_any_request req req' w : listMovies req w = listMovies req' w.
Proof. reflexivity. Qed.

Lemma not_routed_inv req :
  (method req = GET -> path req <> ["movies"] /\ path req <> ["search"]) ->
  (method req = POST -> path req <> ["movies"]) ->
  (method req = PUT \/ method req = DELETE ->
   forall id, path req = ["movies"; id] -> id = "") ->
  ~ Routed req.
Proof.
  intros Hget Hpost Hid HR.
  destruct HR as [req Hm Hp | req Hm Hp | req Hm Hp | req id Hm Hp Hne
                 | req id Hm Hp Hne].
  - by destruct (Hget Hm).
  - by destruct (Hget Hm).
  - by apply (Hpost Hm).
  - apply Hne. apply (Hid (or_introl Hm) id Hp).
  - apply Hne. apply (Hid (or_intror Hm) id Hp).
Qed.

Ltac eqb_facts :=
  repeat match goal with
         | H : String.eqb _ _ = false |- _ => apply String.eqb_neq in H
         | H : String.eqb _ _ = true |- _ => apply String.eqb_eq in H
         end.

Ltac eval_eqb :=
  repeat match goal with
         | |- context [String.eqb ?a ?b] =>
             let v := eval vm_compute in (String.eqb a b) in
             match v with
             | true => change (String.eqb a b) with true
             | false => change (String.eqb a b) with false
             end
         end.

Ltac unfold_dispatch :=
  unfold app, router, dispatch;
  repeat match goal with
         | H : method _ = _ |- _ => rewrite H
         | H : path _ = _ |- _ => rewrite H
         end;
  with_strategy opaque [String.eqb] simpl;
  repeat match goal with
         | H : String.eqb _ _ = _ |- _ => rewrite H
         end;
  eval_eqb;
  with_strategy opaque [String.eqb] simpl.

Ltac subst_eqb :=
  repeat match goal with
         | H : String.eqb _ _ = true |- _ => apply String.eqb_eq in H; subst
         end.

Ltac solve_unrouted :=
  subst_eqb; do 3 right; split;
  [ let HR := fresh "HR" in
    intros HR; destruct HR; eqb_facts; congruence
  | unfold_dispatch;
    repeat match goal with
           | |- context [String.eqb ?a ?b] => destruct (String.eqb a b)
           end;
    reflexivity ].

(** Every request falls in one of four classes: the two public routes, a
    mutating route, or no route at all. *)
Lemma app_cases d req w :
  (method req = GET /\ path req = ["movies"] /\ app d req w = listMovies req w)
  \/ (method req = GET /\ path req = ["search"]
      /\ app d req w = searchMovies d req w)
  \/ (exists req' h, MutatingRoute d req req' h)
  \/ (~ Routed req /\ app d req w = (res_status_json 404 CannotRoute, w)).
Proof.
  destruct (method req) eqn:Hm; destruct (path req) as [|x [|y [|z p]]] eqn:Hp;
    try solve_unrouted.
  all: destruct (String.eqb "movies" x) eqn:Ex; try solve_unrouted.
  - left. pose proof Ex as Ex'. apply String.eqb_eq in Ex' as <-. repeat split.
    unfold_dispatch. unfold final, listMovies. by destruct (Movie.find w).
  - destruct (String.eqb "search" x) eqn:Es; [|solve_unrouted].
    right; left. pose proof Es as Es'. apply String.eqb_eq in Es' as <-.
    repeat split. unfold_dispatch. unfold final. by destruct (searchMovies d _ w).
  - right; right; left. apply String.eqb_eq in Ex as <-.
    eexists _, _. by apply route_post.
  - destruct (String.eqb y "") eqn:Ey; [solve_unrouted|].
    right; right; left. apply String.eqb_eq in Ex as <-.
    apply String.eqb_neq in Ey. eexists _, _. by apply (route_put d req y).
  - destruct (String.eqb y "") eqn:Ey; [solve_unrouted|].
    right; right; left. apply String.eqb_eq in Ex as <-.
    apply String.eqb_neq in Ey. eexists _, _. by apply (route_delete d req y).
Qed.

Lemma mutating_not_get d req req' h :
  MutatingRoute d req req' h -> method req <> GET.
Proof. intros [? Hm ? | ? ? Hm ? ? | ? ? Hm ? ?]; congruence. Qed.

Lemma mutating_routed d req req' h : MutatingRoute d req req' h -> Routed req.
Proof.
  intros [? Hm Hp | ? id Hm Hp Hid | ? id Hm Hp Hid].
  - by apply routed_add.
  - by apply (routed_update _ id).
  - by apply (routed_delete _ id).
Qed.

Lemma app_list d req w :
  method req = GET -> path req = ["movies"] -> app d req w = listMovies req w.
Proof.
  intros Hm Hp.
  destruct (app_cases d req w) as [(_ & _ & E) | [(_ & Hs & _) | [(r & h & HR) | (HN & _)]]].
  - exact E.
  - congruence.
  - by destruct (mutating_not_get _ _ _ _ HR).
  - destruct HN. by apply routed_list.
Qed.

Lemma app_search d req w :
  method req = GET -> path req = ["search"] -> app d req w = searchMovies d req w.
Proof.
  intros Hm Hp.
  destruct (app_cases d req w) as [(_ & Hs & _) | [(_ & _ & E) | [(r & h & HR) | (HN & _)]]].
  - congruence.
  - exact E.
  - by destruct (mutating_not_get _ _ _ _ HR).
  - destruct HN. by apply routed_search.
Qed.

Lemma app_unrouted d req w :
  ~ Routed req -> app d req w = (res_status_json 404 CannotRoute, w).
Proof.
  intros HN.
  destruct (app_cases d req w) as [(Hm & Hp & _) | [(Hm & Hp & _) | [(r & h & HR) | (_ & E)]]].
  - destruct HN. by apply routed_list.
  - destruct HN. by apply routed_search.
  - destruct HN. by apply (mutating_routed d req r h).
  - exact E.
Qed.

Lemma Routed_same_line req req' :
  method req' = method req -> path req' = path req -> Routed req -> Routed req'.
Proof.
  intros Hm Hp HR.
  destruct HR as [? H1 H2 | ? H1 H2 | ? H1 H2 | ? id H1 H2 H3 | ? id H1 H2 H3];
    rewrite <- Hm in H1; rewrite <- Hp in H2.
  - by apply routed_list.
  - by apply routed_search.
  - by apply routed_add.
  - by apply (routed_update _ id).
  - by apply (routed_delete _ id).
Qed.

(** The gate lets a request pass only with a verified admin token. *)
Lemma gate_next_admin d req :
  authenticateAdmin d req = Next -> admin_request d req.
Proof.
  unfold authenticateAdmin, admin_request.
  destruct (token_of (headers_authorization req)) as [t|] eqn:Ht; simpl; [|done].
  destruct (String.eqb t "") eqn:Hne; simpl; [done|].
  destruct (jwt_verify d t (JWT_SECRET d)) as [dec|] eqn:Hv; [|done].
  destruct (Js.strict_ne_string (role dec) "admin") eqn:E; [done|].
  intros _. exists t, dec. apply String.eqb_neq in Hne.
  apply strict_ne_admin in E. done.
Qed.

(** The responses of the gate. *)
Lemma gate_sent d req r :
  authenticateAdmin d req = Sent r -> r = unauthorized \/ r = forbidden.
Proof.
  unfold authenticateAdmin. repeat case_match; intros [= <-]; auto.
Qed.

(** ** The shape of what each handler answers *)

Lemma listMovies_shape req w :
  listMovies req w = (res_json (Movies (all_movies w)), w)
  \/ listMovies req w = (res_status_json 500 (Message "Server error"), w).
Proof. unfold listMovies, Movie.find. destruct (connected w); auto. Qed.

Lemma searchMovies_shape d req w :
  (exists found, searchMovies d req w = (res_json (Movies found), w))
  \/ searchMovies d req w = (res_status_json 500 (Message "Server error"), w).
Proof.
  unfold searchMovies, Movie.find_title_or_genre.
  destruct (connected w); simpl; [|auto].
  destruct (Regex.compile_i d (query_q req)); eauto.
Qed.

Lemma addMovie_shape d req w :
  (exists m w', addMovie d req w = (res_status_json 201 (OneMovie m), w'))
  \/ (exists w', addMovie d req w
                 = (res_status_json 400 (Message "Invalid data"), w')).
Proof.
  rewrite addMovie_eq. simpl. destruct (Movie.save _ _) as [[?|?] w2]; eauto.
Qed.

Lemma updateMovie_shape req w :
  (exists m w', updateMovie req w = (res_json (OneMovie m), w'))
  \/ updateMovie req w = (res_status_json 404 (Message "Movie not found"), w)
  \/ updateMovie req w = (res_status_json 400 (Message "Invalid data"), w).
Proof.
  unfold updateMovie, Movie.findByIdAndUpdate.
  destruct (castObjectId (params_id req)); [|auto].
  destruct (connected w); simpl; [|auto].
  destruct (docs w !! o); [|auto].
  destruct (Movie.is_empty_update (body req)); eauto.
Qed.

Lemma deleteMovie_shape req w :
  (exists w', deleteMovie req w
              = (res_json (Message "Movie deleted successfully"), w'))
  \/ deleteMovie req w = (res_status_json 404 (Message "Movie not found"), w)
  \/ deleteMovie req w = (res_status_json 500 (Message "Server error"), w).
Proof.
  unfold deleteMovie, Movie.findByIdAndDelete.
  destruct (castObjectId (params_id req)); [|auto].
  destruct (connected w); simpl; [|auto].
  destruct (docs w !! o); eauto.
Qed.

(** X1. The two public routes do not look at the [Authorization] header:
    a GET request is answered the same, and leaves the same world,
    whatever the header carries. *)
Theorem X1_public_routes_ignore_authorization (d : Deps) (req : Request)
    (a : option string) (w : World) :
  method req = GET ->
  app d (with_authorization req a) w = app d req w.
Proof.
  intros Hm.
  destruct (app_cases d req w) as [(_ & Hp & E) | [(_ & Hp & E) | [(r & h & HR) | (HN & E)]]].
  - rewrite E. by rewrite app_list.
  - rewrite E. by rewrite app_search.
  - by destruct (mutating_not_get _ _ _ _ HR).
  - rewrite E. apply app_unrouted. intros HR. apply HN.
    by apply (Routed_same_line (with_authorization req a) req).
Qed.

Lemma X1_public_routes_ignore_authorization_witness :
  app Demo.deps
    (with_authorization (Demo.request GET ["movies"] None "" Demo.no_fields)
       (Some "Bearer user")) Demo.dune_world
  = app Demo.deps (Demo.request GET ["movies"] None "" Demo.no_fields)
      Demo.dune_world.
Proof.
  apply (X1_public_routes_ignore_authorization Demo.deps). reflexivity.
Defined.

(** ** The layers of the route table

    The properties of this part are about the chain of the layer that
    serves a request, whichever way the request was matched to it. *)

Lemma layer_cases d l :
  l ∈ router d ->
  (layer_method l = GET /\ layer_chain l = [final listMovies])
  \/ (layer_method l = GET /\ layer_chain l = [final (searchMovies d)])
  \/ (layer_method l = POST
      /\ layer_chain l = [gate (authenticateAdmin d); final (addMovie d)])
  \/ (layer_method l = PUT
      /\ layer_chain l = [gate (authenticateAdmin d); final updateMovie])
  \/ (layer_method l = DELETE
      /\ layer_chain l = [gate (authenticateAdmin d); final deleteMovie]).
Proof.
  unfold router. rewrite !elem_of_cons, elem_of_nil.
  intros [-> | [-> | [-> | [-> | [-> | []]]]]]; simpl; auto 10.
Qed.

Lemma chain_public h req w :
  run_chain [final h] req w = (Some (h req w).1, (h req w).2).
Proof. simpl. unfold final. by destruct (h req w). Qed.

Lemma chain_gated d h req w :
  run_chain [gate (authenticateAdmin d); final h] req w
  = match authenticateAdmin d req with
    | Sent r => (Some r, w)
    | Next => (Some (h req w).1, (h req w).2)
    end.
Proof.
  destruct (authenticateAdmin d req) as [|r] eqn:G.
  - by apply gate_passes_chain.
  - by apply gate_stops_chain.
Qed.

(** X3. Whichever layer of the route table serves a request, its chain
    changes the world only when the layer is one of the three mutating
    ones and the request carries a token that verifies with the role
    [admin]: the chains of the two GET layers change nothing, and so do
    the others for unauthenticated and non-admin requests. *)
Theorem X3_only_admin_changes_the_world (d : Deps) (l : Layer) (req : Request)
    (w : World) :
  l ∈ router d ->
  (run_chain (layer_chain l) req w).2 <> w ->
  admin_request d req /\ layer_method l <> GET.
Proof.
  intros Hl Hchg.
  destruct (layer_cases d l Hl)
    as [(Hm & E) | [(Hm & E) | [(Hm & E) | [(Hm & E) | (Hm & E)]]]];
    rewrite E in Hchg.
  - destruct Hchg. rewrite chain_public.
    by destruct (listMovies_shape req w) as [-> | ->].
  - destruct Hchg. rewrite chain_public.
    by destruct (searchMovies_shape d req w) as [(? & ->) | ->].
  - rewrite chain_gated in Hchg.
    destruct (authenticateAdmin d req) eqn:G; [|done].
    split; [by apply gate_next_admin | congruence].
  - rewrite chain_gated in Hchg.
    destruct (authenticateAdmin d req) eqn:G; [|done].
    split; [by apply gate_next_admin | congruence].
  - rewrite chain_gated in Hchg.
    destruct (authenticateAdmin d req) eqn:G; [|done].
    split; [by apply gate_next_admin | congruence].
Qed.

Lemma X3_only_admin_changes_the_world_witness :
  admin_request Demo.deps
    (with_params_id
       (Demo.request DELETE ["movies"; Demo.id0] (Some "Bearer good") ""
          Demo.no_fields) Demo.id0).
Proof.
  apply (X3_only_admin_changes_the_world Demo.deps
           {| layer_method := DELETE; layer_path := [Fixed "movies"; ParamId];
              layer_chain := [gate (authenticateAdmin Demo.deps);
                              final deleteMovie] |}
           _ Demo.dune_world).
  - unfold router. rewrite !elem_of_cons. auto 10.
  - vm_compute. discriminate.
Defined.

(** X4. The status codes of the chain of each layer, which always
    answers: a GET layer answers 200 or 500; the POST layer answers 201,
    400, 401 or 403 and never 500; the PUT layer answers 200, 400, 401,
    403 or 404 and never 500; the DELETE layer answers 200, 401, 403, 404
    or 500 and never 400. *)
Theorem X4_status_codes (d : Deps) (l : Layer) (req : Request) (w : World) :
  l ∈ router d ->
  exists r,
    (run_chain (layer_chain l) req w).1 = Some r
    /\ (layer_method l = GET -> status r ∈ [200; 500])
    /\ (layer_method l = POST -> status r ∈ [201; 400; 401; 403])
    /\ (layer_method l = PUT -> status r ∈ [200; 400; 401; 403; 404])
    /\ (layer_method l = DELETE -> status r ∈ [200; 401; 403; 404; 500]).
Proof.
  intros Hl.
  destruct (layer_cases d l Hl)
    as [(Hm & E) | [(Hm & E) | [(Hm & E) | [(Hm & E) | (Hm & E)]]]];
    rewrite E, Hm.
  - rewrite chain_public. eexists. split; [reflexivity|].
    repeat split; intros; try discriminate.
    destruct (listMovies_shape req w) as [-> | ->]; simpl; rewrite !elem_of_cons; auto 10.
  - rewrite chain_public. eexists. split; [reflexivity|].
    repeat split; intros; try discriminate.
    destruct (searchMovies_shape d req w) as [(? & ->) | ->]; simpl; rewrite !elem_of_cons; auto 10.
  - rewrite chain_gated. destruct (authenticateAdmin d req) as [|s] eqn:G;
      (eexists; split; [reflexivity|]); repeat split; intros; try discriminate.
    + destruct (addMovie_shape d req w) as [(? & ? & ->) | (? & ->)]; simpl; rewrite !elem_of_cons; auto 10.
    + destruct (gate_sent d req s G) as [-> | ->]; simpl; rewrite !elem_of_cons; auto 10.
  - rewrite chain_gated. destruct (authenticateAdmin d req) as [|s] eqn:G;
      (eexists; split; [reflexivity|]); repeat split; intros; try discriminate.
    + destruct (updateMovie_shape req w) as [(? & ? & ->) | [-> | ->]]; simpl; rewrite !elem_of_cons; auto 10.
    + destruct (gate_sent d req s G) as [-> | ->]; simpl; rewrite !elem_of_cons; auto 10.
  - rewrite chain_gated. destruct (authenticateAdmin d req) as [|s] eqn:G;
      (eexists; split; [reflexivity|]); repeat split; intros; try discriminate.
    + destruct (deleteMovie_shape req w) as [(? & ->) | [-> | ->]]; simpl; rewrite !elem_of_cons; auto 10.
    + destruct (gate_sent d req s G) as [-> | ->]; simpl; rewrite !elem_of_cons; auto 10.
Qed.

Lemma X4_status_codes_witness :
  exists r,
    (run_chain [gate (authenticateAdmin Demo.deps); final updateMovie]
       (with_params_id
          (Demo.request PUT ["movies"; Demo.id0] (Some "Bearer good") ""
             Demo.no_fields) Demo.id0)
       Demo.dune_world).1 = Some r
    /\ status r ∈ [200; 400; 401; 403; 404].
Proof.
  destruct (X4_status_codes Demo.deps
              {| layer_method := PUT; layer_path := [Fixed "movies"; ParamId];
                 layer_chain := [gate (authenticateAdmin Demo.deps);
                                 final updateMovie] |}
              (with_params_id
                 (Demo.request PUT ["movies"; Demo.id0] (Some "Bearer good") ""
                    Demo.no_fields) Demo.id0)
              Demo.dune_world) as (r & Hr & _ & _ & Hput & _).
  - unfold router. rewrite !elem_of_cons. auto 10.
  - exists r. split; [exact Hr|]. by apply Hput.
Defined.

(** X5. What the chain of a layer answers is one of nine: five errors,
    each a status with its fixed [message], and four successes.  In
    particular every error of the gate or of a handler is a JSON body
    with a [message], and no chain leaves a request unanswered. *)
Theorem X5_response_catalogue (d : Deps) (l : Layer) (req : Request) (w : World) :
  l ∈ router d ->
  exists r,
    (run_chain (layer_chain l) req w).1 = Some r
    /\ (r = res_status_json 401 (Message "Unauthorized")
        \/ r = res_status_json 403 (Message "Forbidden")
        \/ r = res_status_json 400 (Message "Invalid data")
        \/ r = res_status_json 404 (Message "Movie not found")
        \/ r = res_status_json 500 (Message "Server error")
        \/ (exists ms, r = res_json (Movies ms))
        \/ (exists m, r = res_json (OneMovie m))
        \/ (exists m, r = res_status_json 201 (OneMovie m))
        \/ r = res_json (Message "Movie deleted successfully")).
Proof.
  intros Hl.
  destruct (layer_cases d l Hl)
    as [(Hm & E) | [(Hm & E) | [(Hm & E) | [(Hm & E) | (Hm & E)]]]];
    rewrite E.
  - rewrite chain_public. eexists. split; [reflexivity|].
    destruct (listMovies_shape req w) as [-> | ->]; simpl; eauto 12.
  - rewrite chain_public. eexists. split; [reflexivity|].
    destruct (searchMovies_shape d req w) as [(? & ->) | ->]; simpl; eauto 12.
  - rewrite chain_gated. destruct (authenticateAdmin d req) as [|s] eqn:G;
      (eexists; split; [reflexivity|]).
    + destruct (addMovie_shape d req w) as [(? & ? & ->) | (? & ->)];
        simpl; eauto 12.
    + destruct (gate_sent d req s G) as [-> | ->]; simpl; auto.
  - rewrite chain_gated. destruct (authenticateAdmin d req) as [|s] eqn:G;
      (eexists; split; [reflexivity|]).
    + destruct (updateMovie_shape req w) as [(? & ? & ->) | [-> | ->]];
        simpl; eauto 12.
    + destruct (gate_sent d req s G) as [-> | ->]; simpl; auto.
  - rewrite chain_gated. destruct (authenticateAdmin d req) as [|s] eqn:G;
      (eexists; split; [reflexivity|]).
    + destruct (deleteMovie_shape req w) as [(? & ->) | [-> | ->]];
        simpl; eauto 12.
    + destruct (gate_sent d req s G) as [-> | ->]; simpl; auto.
Qed.

Lemma X5_response_catalogue_witness :
  exists r,
    (run_chain [final listMovies]
       (Demo.request GET ["movies"] None "" Demo.no_fields) Demo.dune_world).1
    = Some r.
Proof.
  destruct (X5_response_catalogue Demo.deps
              {| layer_method := GET; layer_path := [Fixed "movies"];
                 layer_chain := [final listMovies] |}
              (Demo.request GET ["movies"] None "" Demo.no_fields)
              Demo.dune_world) as (r & Hr & _).
  - unfold router. rewrite !elem_of_cons. auto 10.
  - by exists r.
Defined.

(** ** Creation, in full *)

Lemma addMovie_saved d req w :
  validate MovieSchema (body req) = true -> connected w = true ->
  docs w !! ObjectId_generate d (constructed w) = None ->
  addMovie d req w
  = (res_status_json 201
       (OneMovie {| _id := ObjectId_generate d (constructed w); doc := body req |}),
     with_docs (with_constructed w (S (constructed w)))
       (<[ObjectId_generate d (constructed w) := body req]> (docs w))).
Proof.
  intros Hv Hw Hfresh. rewrite addMovie_eq. simpl. unfold Movie.save. simpl.
  by rewrite Hv, Hw, Hfresh.
Qed.

Lemma addMovie_refused d req w :
  validate MovieSchema (body req) = false \/ connected w = false
  \/ is_Some (docs w !! ObjectId_generate d (constructed w)) ->
  addMovie d req w
  = (res_status_json 400 (Message "Invalid data"),
     with_constructed w (S (constructed w))).
Proof.
  intros H. rewrite addMovie_eq. simpl. unfold Movie.save. simpl.
  destruct (validate MovieSchema (body req)); simpl; [|done].
  destruct (connected w); simpl; [|done].
  destruct (docs w !! ObjectId_generate d (constructed w)); [done|].
  destruct H as [H | [H | [? H]]]; discriminate.
Qed.

(** X6. [addMovie] answers 201 exactly when the payload meets the schema,
    the server answers and the identifier of the new document is unused;
    in every other case it answers 400 "Invalid data", also when the
    failure is the server's, and then the collection is what it was. *)
Theorem X6_add_exact (d : Deps) (req : Request) (w : World) :
  let accepted := meets_schema (body req) /\ connected w = true
                  /\ docs w !! ObjectId_generate d (constructed w) = None in
  (accepted <-> status (addMovie d req w).1 = 201)
  /\ (~ accepted <->
      (addMovie d req w).1 = res_status_json 400 (Message "Invalid data"))
  /\ (status (addMovie d req w).1 = 400 ->
      docs (addMovie d req w).2 = docs w).
Proof.
  intros accepted. unfold accepted, meets_schema.
  rewrite <- validate_MovieSchema.
  destruct (validate MovieSchema (body req)) eqn:Hv;
    [destruct (connected w) eqn:Hw;
     [destruct (docs w !! ObjectId_generate d (constructed w)) eqn:Hf|]|].
  - rewrite (addMovie_refused d req w); [|rewrite Hf; eauto].
    simpl. intuition (try discriminate; try congruence).
  - rewrite (addMovie_saved d req w Hv Hw Hf). simpl.
    intuition (try discriminate; try congruence).
  - rewrite (addMovie_refused d req w); [|auto].
    simpl. intuition (try discriminate; try congruence).
  - rewrite (addMovie_refused d req w); [|auto].
    simpl. intuition (try discriminate; try congruence).
Qed.

(** X7. [addMovie] never touches the records that are there: every
    identifier in use keeps its record, and at most the identifier of the
    new document is added. *)
Theorem X7_add_keeps_records (d : Deps) (req : Request) (w : World) :
  (forall k f, docs w !! k = Some f -> docs (addMovie d req w).2 !! k = Some f)
  /\ (forall k, is_Some (docs (addMovie d req w).2 !! k) ->
                is_Some (docs w !! k) \/ k = ObjectId_generate d (constructed w))
  /\ connected (addMovie d req w).2 = connected w.
Proof.
  rewrite addMovie_eq. simpl. unfold Movie.save. simpl.
  destruct (validate MovieSchema (body req)); simpl; [|by auto].
  destruct (connected w) eqn:Hw; simpl; [|by auto].
  destruct (docs w !! ObjectId_generate d (constructed w)) eqn:Hf; simpl;
    [by auto|].
  split; [|split; [|done]].
  - intros k f Hk. rewrite lookup_insert_ne; [done|]. congruence.
  - intros k Hk. destruct (decide (k = ObjectId_generate d (constructed w)));
      [by right|left]. by rewrite lookup_insert_ne in Hk.
Qed.

(** X8. After a successful [addMovie] the listing is the old listing plus
    the created record, up to order. *)
Theorem X8_add_then_list (d : Deps) (req other : Request) (w : World) (m : IMovie) :
  (addMovie d req w).1 = res_status_json 201 (OneMovie m) ->
  let w' := (addMovie d req w).2 in
  (listMovies other w').1 = res_json (Movies (all_movies w'))
  /\ all_movies w' ≡ₚ m :: all_movies w
  /\ length (all_movies w') = S (length (all_movies w)).
Proof.
  intros H201.
  destruct (validate MovieSchema (body req)) eqn:Hv;
    [destruct (connected w) eqn:Hw;
     [destruct (docs w !! ObjectId_generate d (constructed w)) eqn:Hf|]|];
    try solve [rewrite (addMovie_refused d req w) in H201; [discriminate|];
               rewrite ?Hf; eauto].
  rewrite (addMovie_saved d req w Hv Hw Hf) in *. simpl in *.
  injection H201 as <-.
  assert (HP : all_movies
                 (with_docs (with_constructed w (S (constructed w)))
                    (<[ObjectId_generate d (constructed w) := body req]> (docs w)))
               ≡ₚ {| _id := ObjectId_generate d (constructed w); doc := body req |}
                  :: all_movies w).
  { unfold all_movies. simpl. by rewrite (map_to_list_insert _ _ _ Hf). }
  split; [|split; [exact HP|by rewrite HP]].
  unfold listMovies, Movie.find. simpl. by rewrite Hw.
Qed.

Lemma X8_add_then_list_witness :
  all_movies
    (addMovie Demo.deps
       (Demo.request POST ["movies"] (Some "Bearer good") "" Demo.dune)
       Demo.empty_world).2
  ≡ₚ {| _id := 0%N; doc := Demo.dune |} :: all_movies Demo.empty_world.
Proof.
  apply (X8_add_then_list Demo.deps _
           (Demo.request GET ["movies"] None "" Demo.no_fields)).
  reflexivity.
Defined.

(** ** Updates, in full *)

Lemma updateMovie_rejected req w :
  castObjectId (params_id req) = None \/ connected w = false ->
  updateMovie req w = (res_status_json 400 (Message "Invalid data"), w).
Proof.
  intros H. unfold updateMovie, Movie.findByIdAndUpdate.
  destruct (castObjectId (params_id req)); [|done].
  destruct H as [H | H]; [discriminate|]. by rewrite H.
Qed.

(** X9. [updateMovie] reports a failure of the store as an error of the
    client: when the server does not answer, or the identifier cannot be
    cast, it answers 400 "Invalid data" and changes nothing, and it never
    answers 500.  It answers 200 only when the identifier casts, the
    server answers and the record exists, and 404 only when the
    identifier casts, the server answers and no record has it; with a 404
    nothing has changed. *)
Theorem X9_update_answers (req : Request) (w : World) :
  let code := status (updateMovie req w).1 in
  (castObjectId (params_id req) = None \/ connected w = false ->
   updateMovie req w = (res_status_json 400 (Message "Invalid data"), w))
  /\ code <> 500
  /\ (code = 200 ->
      exists oid, castObjectId (params_id req) = Some oid /\ connected w = true
                  /\ is_Some (docs w !! oid))
  /\ (code = 404 ->
      (exists oid, castObjectId (params_id req) = Some oid /\ connected w = true
                   /\ docs w !! oid = None)
      /\ (updateMovie req w).2 = w).
Proof.
  intros code. unfold code. split; [apply updateMovie_rejected|].
  destruct (castObjectId (params_id req)) as [oid|] eqn:Hc;
    [destruct (connected w) eqn:Hw; [destruct (docs w !! oid) as [cur|] eqn:Hd|]|].
  - rewrite (updateMovie_found req oid cur w Hc Hw Hd). simpl.
    split; [done|]. split; [|done].
    intros _. exists oid. rewrite Hd. eauto.
  - rewrite (updateMovie_missing req oid w Hc Hw Hd). simpl.
    split; [done|]. split; [done|].
    intros _. split; [by exists oid | done].
  - rewrite (updateMovie_rejected req w); [|auto]. simpl. done.
  - rewrite (updateMovie_rejected req w); [|auto]. simpl. done.
Qed.

(** X10. [updateMovie] neither creates nor removes a record: the
    identifiers in use are the same before and after, for every request. *)
Theorem X10_update_keeps_identifiers (req : Request) (w : World) :
  dom (docs (updateMovie req w).2) = dom (docs w)
  /\ length (all_movies (updateMovie req w).2) = length (all_movies w).
Proof.
  assert (H : dom (docs (updateMovie req w).2) = dom (docs w)).
  { destruct (castObjectId (params_id req)) as [oid|] eqn:Hc;
      [destruct (connected w) eqn:Hw; [destruct (docs w !! oid) as [cur|] eqn:Hd|]|].
    - rewrite (updateMovie_found req oid cur w Hc Hw Hd). simpl.
      apply dom_insert_lookup_L. by rewrite Hd.
    - by rewrite (updateMovie_missing req oid w Hc Hw Hd).
    - rewrite (updateMovie_rejected req w); auto.
    - rewrite (updateMovie_rejected req w); auto. }
  split; [exact H|].
  unfold all_movies. rewrite !length_fmap, !length_map_to_list.
  rewrite <- !size_dom. by rewrite H.
Qed.

(** ** Deletion, in full *)

Lemma deleteMovie_found req oid cur w :
  castObjectId (params_id req) = Some oid -> connected w = true ->
  docs w !! oid = Some cur ->
  deleteMovie req w
  = (res_json (Message "Movie deleted successfully"),
     with_docs w (delete oid (docs w))).
Proof.
  intros Hc Hw Hd. unfold deleteMovie, Movie.findByIdAndDelete.
  by rewrite Hc, Hw, Hd.
Qed.

Lemma deleteMovie_untouched req w :
  (deleteMovie req w).2 = w
  \/ exists oid cur, castObjectId (params_id req) = Some oid
       /\ connected w = true /\ docs w !! oid = Some cur
       /\ deleteMovie req w
          = (res_json (Message "Movie deleted successfully"),
             with_docs w (delete oid (docs w))).
Proof.
  unfold deleteMovie, Movie.findByIdAndDelete.
  destruct (castObjectId (params_id req)) as [oid|]; [|by left].
  destruct (connected w) eqn:Hw; simpl; [|by left].
  destruct (docs w !! oid) as [cur|] eqn:Hd; [|by left].
  right. by exists oid, cur.
Qed.

Lemma deleteMovie_missing req oid w :
  castObjectId (params_id req) = Some oid -> connected w = true ->
  docs w !! oid = None ->
  deleteMovie req w = (res_status_json 404 (Message "Movie not found"), w).
Proof.
  intros Hc Hw Hd. unfold deleteMovie, Movie.findByIdAndDelete.
  by rewrite Hc, Hw, Hd.
Qed.

Lemma deleteMovie_failed req w :
  castObjectId (params_id req) = None \/ connected w = false ->
  deleteMovie req w = (res_status_json 500 (Message "Server error"), w).
Proof.
  intros H. unfold deleteMovie, Movie.findByIdAndDelete.
  destruct (castObjectId (params_id req)); [|done].
  destruct H as [H | H]; [discriminate|]. by rewrite H.
Qed.

(** X12. After a successful [deleteMovie] the old listing is the new
    listing plus the deleted record, up to order: exactly one record is
    gone, and it is the one addressed. *)
Theorem X12_delete_then_list (req : Request) (w : World) :
  (deleteMovie req w).1 = res_json (Message "Movie deleted successfully") ->
  exists deleted,
    castObjectId (params_id req) = Some (_id deleted)
    /\ deleted ∈ all_movies w
    /\ all_movies w ≡ₚ deleted :: all_movies (deleteMovie req w).2
    /\ S (length (all_movies (deleteMovie req w).2)) = length (all_movies w).
Proof.
  destruct (castObjectId (params_id req)) as [oid|] eqn:Hc;
    [destruct (connected w) eqn:Hw; [destruct (docs w !! oid) as [cur|] eqn:Hd|]|].
  - rewrite (deleteMovie_found req oid cur w Hc Hw Hd). simpl. intros _.
    exists {| _id := oid; doc := cur |}.
    assert (HP : all_movies w
                 ≡ₚ {| _id := oid; doc := cur |}
                    :: all_movies (with_docs w (delete oid (docs w)))).
    { unfold all_movies. simpl. by rewrite <- (map_to_list_delete _ _ _ Hd). }
    split; [done|]. split; [by apply elem_of_all_movies|].
    split; [exact HP|]. by rewrite HP.
  - by rewrite (deleteMovie_missing req oid w Hc Hw Hd).
  - rewrite (deleteMovie_failed req w); [done|auto].
  - rewrite (deleteMovie_failed req w); [done|auto].
Qed.

Lemma X12_delete_then_list_witness :
  exists deleted,
    castObjectId Demo.id0 = Some (_id deleted)
    /\ deleted ∈ all_movies Demo.dune_world.
Proof.
  destruct (X12_delete_then_list
              (with_params_id
                 (Demo.request DELETE ["movies"; Demo.id0] (Some "Bearer good") ""
                    Demo.no_fields) Demo.id0)
              Demo.dune_world eq_refl) as (m & H1 & H2 & _).
  exists m. split; assumption.
Defined.

(** X13. Whatever the identifier, [deleteMovie] touches no record but the
    one it addresses, and it adds none. *)
Theorem X13_delete_frame (req : Request) (w : World) (k : ObjectId) :
  docs (deleteMovie req w).2 !! k = docs w !! k
  \/ (castObjectId (params_id req) = Some k
      /\ docs (deleteMovie req w).2 !! k = None).
Proof.
  destruct (deleteMovie_untouched req w) as [-> | (oid & cur & Hc & Hw & Hd & ->)];
    [by left|]. simpl.
  destruct (decide (k = oid)) as [->|Hk].
  - right. split; [done|]. apply lookup_delete_eq.
  - left. by apply lookup_delete_ne.
Qed.

(** X14. Creating a record and then deleting it by its identifier gives
    back the collection as it was before the creation. *)
Theorem X14_add_then_delete (d : Deps) (req del : Request) (w : World)
    (m : IMovie) :
  (addMovie d req w).1 = res_status_json 201 (OneMovie m) ->
  castObjectId (params_id del) = Some (_id m) ->
  let w1 := (addMovie d req w).2 in
  (deleteMovie del w1).1 = res_json (Message "Movie deleted successfully")
  /\ docs (deleteMovie del w1).2 = docs w
  /\ all_movies (deleteMovie del w1).2 = all_movies w.
Proof.
  intros H201 Hc.
  destruct (validate MovieSchema (body req)) eqn:Hv;
    [destruct (connected w) eqn:Hw;
     [destruct (docs w !! ObjectId_generate d (constructed w)) eqn:Hf|]|];
    try solve [rewrite (addMovie_refused d req w) in H201; [discriminate|];
               rewrite ?Hf; eauto].
  rewrite (addMovie_saved d req w Hv Hw Hf) in *. simpl in *.
  injection H201 as <-. simpl in Hc.
  erewrite (deleteMovie_found del _ (body req)); [|exact Hc|done|].
  2:{ simpl. apply lookup_insert_eq. }
  simpl.
  assert (E : delete (ObjectId_generate d (constructed w))
                (<[ObjectId_generate d (constructed w) := body req]> (docs w))
              = docs w).
  { rewrite delete_insert_eq. by apply delete_id. }
  split; [done|]. split; [exact E|]. unfold all_movies. simpl. by rewrite E.
Qed.

Lemma X14_add_then_delete_witness :
  docs (deleteMovie
          (with_params_id
             (Demo.request DELETE ["movies"; Demo.id0] (Some "Bearer good") ""
                Demo.no_fields) Demo.id0)
          (addMovie Demo.deps
             (Demo.request POST ["movies"] (Some "Bearer good") "" Demo.dune)
             Demo.empty_world).2).2
  = docs Demo.empty_world.
Proof.
  apply (X14_add_then_delete Demo.deps _ _ Demo.empty_world
           {| _id := 0%N; doc := Demo.dune |}); reflexivity.
Defined.

(** ** Search, for every query *)

Lemma filter_all {A} (P : A -> Prop) `{!forall x, Decision (P x)} (l : list A) :
  Forall P l -> filter P l = l.
Proof.
  induction 1 as [|x l Hx _ IH]; [done|].
  rewrite filter_cons_True by done. by rewrite IH.
Qed.

Lemma path_matches_some t v :
  Movie.path_matches t v = true -> is_Some v.
Proof. destruct v; [eauto | discriminate]. Qed.

(** X15. Whatever the query, [searchMovies] changes nothing and never
    returns a record that the collection does not hold: it answers 500
    exactly when the server does not answer or the pattern does not
    compile, and otherwise 200 with a part of the listing, in its order,
    every record of which has a title or a genre. *)
Theorem X15_search_any_query (d : Deps) (req : Request) (w : World) :
  (searchMovies d req w).2 = w
  /\ (connected w = false \/ Regex.compile_i d (query_q req) = None <->
      (searchMovies d req w).1 = res_status_json 500 (Message "Server error"))
  /\ (connected w = true /\ is_Some (Regex.compile_i d (query_q req)) <->
      exists found, (searchMovies d req w).1 = res_json (Movies found))
  /\ (forall found,
        (searchMovies d req w).1 = res_json (Movies found) ->
        found `sublist_of` all_movies w
        /\ forall m, m ∈ found ->
                     is_Some (title (doc m)) \/ is_Some (genre (doc m))).
Proof.
  unfold searchMovies, Movie.find_title_or_genre.
  destruct (connected w); simpl.
  - destruct (Regex.compile_i d (query_q req)) as [t|]; simpl.
    + split; [done|]. split; [split; [intros [?|?]; done | done]|].
      split; [split; [eauto | by eauto]|].
      intros found [= <-]. split; [apply sublist_filter|].
      intros m Hm. apply list_elem_of_filter in Hm as [Hm _].
      apply Is_true_true, orb_true_iff in Hm.
      destruct Hm as [Hm | Hm]; [left | right]; by apply (path_matches_some t).
    + split; [done|]. split; [split; auto|].
      split; [split; [by intros [_ [? ?]] | by intros [? ?]]|]. done.
  - split; [done|]. split; [split; auto|].
    split; [split; [by intros [? _] | by intros [? ?]]|]. done.
Qed.

Lemma lower_query_search x y s :
  lower x = lower y ->
  Regex.search (literal_atoms x) s = Regex.search (literal_atoms y) s.
Proof.
  intros H. apply eq_true_iff_eq. rewrite !search_literal.
  unfold contains_ci. by rewrite H.
Qed.

(** X16. The case of the letters of a query does not matter: two queries
    of ordinary characters that agree up to case are answered the same. *)
Theorem X16_search_ignores_query_case (d : Deps) (req : Request)
    (x y : string) (w : World) :
  plain_query x -> plain_query y -> lower x = lower y ->
  searchMovies d (with_query req x) w = searchMovies d (with_query req y) w.
Proof.
  intros Hx Hy Hxy. unfold searchMovies, Movie.find_title_or_genre, Regex.compile_i.
  simpl. rewrite (parse_plain_query _ Hx), (parse_plain_query _ Hy).
  destruct (connected w); simpl; [|done].
  do 3 f_equal. apply list_filter_iff. intros m.
  assert (E : forall v, Movie.path_matches (Regex.search (literal_atoms x)) v
                        = Movie.path_matches (Regex.search (literal_atoms y)) v).
  { intros [s|]; simpl; [by apply lower_query_search | done]. }
  by rewrite !E.
Qed.

Lemma X16_search_ignores_query_case_witness :
  searchMovies Demo.deps
    (with_query (Demo.request GET ["search"] None "" Demo.no_fields) "DUNE")
    Demo.dune_world
  = searchMovies Demo.deps
      (with_query (Demo.request GET ["search"] None "" Demo.no_fields) "dune")
      Demo.dune_world.
Proof.
  apply (X16_search_ignores_query_case Demo.deps); simpl;
    repeat split; reflexivity.
Defined.

(** X17. On a collection whose records all have a title or a genre, the
    empty query is answered exactly as the listing is: every record, or
    500 when the server does not answer. *)
Theorem X17_empty_query_lists_all (d : Deps) (req other : Request) (w : World) :
  (forall m, m ∈ all_movies w ->
             is_Some (title (doc m)) \/ is_Some (genre (doc m))) ->
  searchMovies d (with_query req "") w = listMovies other w.
Proof.
  intros H. unfold searchMovies, listMovies, Movie.find_title_or_genre, Movie.find.
  destruct (connected w); simpl; [|done].
  do 3 f_equal. apply filter_all. apply Forall_forall. intros m Hm.
  apply Is_true_true, orb_true_iff.
  destruct (H m Hm) as [[t Ht] | [g Hg]]; [left | right].
  - rewrite Ht. by destruct t.
  - rewrite Hg. by destruct g.
Qed.

Lemma X17_empty_query_lists_all_witness :
  searchMovies Demo.deps
    (with_query (Demo.request GET ["search"] None "x" Demo.no_fields) "")
    Demo.dune_world
  = listMovies (Demo.request GET ["movies"] None "" Demo.no_fields) Demo.dune_world.
Proof.
  apply (X17_empty_query_lists_all Demo.deps).
  intros [k f] Hm. apply elem_of_all_movies in Hm. left.
  unfold Demo.dune_world in Hm. simpl in *.
  apply lookup_singleton_Some in Hm as [_ <-]. by eexists.
Defined.

(** ** What a session keeps *)

(** The world after a request: untouched, or what one of the three
    mutating handlers made of it. *)
Lemma app_step d req w :
  (app d req w).2 = w
  \/ (exists r, method req = POST /\ body r = body req
                /\ (app d req w).2 = (addMovie d r w).2)
  \/ (exists r, method req = PUT /\ body r = body req
                /\ (app d req w).2 = (updateMovie r w).2)
  \/ (exists r, method req = DELETE /\ (app d req w).2 = (deleteMovie r w).2).
Proof.
  destruct (app_cases d req w) as [(_ & _ & E) | [(_ & _ & E) | [(r & h & HM) | (_ & E)]]].
  - left. rewrite E. by destruct (listMovies_shape req w) as [-> | ->].
  - left. rewrite E. by destruct (searchMovies_shape d req w) as [(? & ->) | ->].
  - rewrite (app_mutating d req r h w HM).
    destruct (authenticateAdmin d req); [|by left].
    destruct HM as [? Hm Hp | ? id Hm Hp Hid | ? id Hm Hp Hid].
    + right; left. by exists (with_params_id req (params_id req)).
    + right; right; left. by exists (with_params_id req id).
    + right; right; right. by exists (with_params_id req id).
  - left. by rewrite E.
Qed.

Lemma addMovie_docs d req w :
  docs (addMovie d req w).2 = docs w
  \/ (validate MovieSchema (body req) = true
      /\ docs (addMovie d req w).2
         = <[ObjectId_generate d (constructed w) := body req]> (docs w)).
Proof.
  rewrite addMovie_eq. simpl. unfold Movie.save. simpl.
  destruct (validate MovieSchema (body req)); simpl; [|by left].
  destruct (connected w); simpl; [|by left].
  destruct (docs w !! ObjectId_generate d (constructed w)); simpl; [by left|].
  by right.
Qed.

Lemma deleteMovie_docs req w :
  docs (deleteMovie req w).2 = docs w
  \/ exists oid, docs (deleteMovie req w).2 = delete oid (docs w).
Proof.
  destruct (deleteMovie_untouched req w) as [-> | (oid & cur & _ & _ & _ & ->)];
    [by left|]. right. by exists oid.
Qed.

Lemma app_keeps_valid d req w :
  method req <> PUT -> valid_collection w -> valid_collection (app d req w).2.
Proof.
  intros Hput Hw k f.
  destruct (app_step d req w) as [-> | [(r & _ & Hb & ->) | [(r & Hm & _) | (r & _ & ->)]]].
  - apply Hw.
  - destruct (addMovie_docs d r w) as [-> | (Hv & ->)]; [apply Hw|].
    destruct (decide (k = ObjectId_generate d (constructed w))) as [->|Hk].
    + rewrite lookup_insert_eq. by intros [= <-].
    + rewrite lookup_insert_ne by done. apply Hw.
  - done.
  - destruct (deleteMovie_docs r w) as [-> | (oid & ->)]; [apply Hw|].
    intros Hk. apply lookup_delete_Some in Hk as [_ Hk]. by apply (Hw k).
Qed.

(** X19. As long as no PUT is served, the collection keeps the schema:
    if every record passes the validators (non-empty title, genre and
    link, rating in [0,10]), so does every record after any sequence of
    GET, POST and DELETE requests. *)
Theorem X19_sessions_without_put_keep_schema (d : Deps) (reqs : list Request)
    (w : World) :
  Forall (fun req => method req <> PUT) reqs ->
  valid_collection w ->
  forall k f, docs (serve d reqs w) !! k = Some f -> meets_schema f.
Proof.
  intros Hreqs Hw k f Hk. apply validate_MovieSchema.
  revert w Hw Hk. induction Hreqs as [|req reqs Hput _ IH]; intros w Hw Hk.
  - by apply (Hw k).
  - simpl in Hk. apply (IH (app d req w).2); [|done].
    by apply app_keeps_valid.
Qed.

Lemma X19_sessions_without_put_keep_schema_witness : meets_schema Demo.dune.
Proof.
  apply (X19_sessions_without_put_keep_schema Demo.deps
           [Demo.request POST ["movies"] (Some "Bearer good") "" Demo.dune;
            Demo.request DELETE ["movies"; "zz"] (Some "Bearer good") ""
              Demo.no_fields]
           Demo.empty_world
           ltac:(repeat constructor; discriminate)
           ltac:(intros k f Hk; unfold Demo.empty_world in Hk; simpl in Hk;
                 by rewrite lookup_empty in Hk)
           0%N).
  reflexivity.
Defined.

(** ** The token and the identifier *)

Lemma split_pieces_no_space s : Forall no_space (Js.split " "%char s).
Proof.
  induction s as [|c s IH]; simpl; [by repeat constructor|].
  destruct (Ascii.eqb c " "%char) eqn:Hc.
  - by constructor.
  - apply Ascii.eqb_neq in Hc.
    destruct (Js.split " "%char s) as [|p ps]; [by repeat constructor|].
    inversion IH; subst. by constructor.
Qed.

Lemma token_no_space a t : token_of a = Some t -> no_space t.
Proof.
  destruct a as [h|]; [|done]. unfold token_of. intros Ht.
  pose proof (split_pieces_no_space h) as HF.
  rewrite Forall_lookup in HF. by apply (HF 1%nat).
Qed.

(** X20. The gate hands to [jwt.verify] nothing but a non-empty token
    without a space: two verifiers that agree on such tokens give the same
    decision on every request. *)
Theorem X20_gate_verifies_clean_tokens (d1 d2 : Deps) (req : Request) :
  (forall t, t <> "" -> no_space t ->
             jwt_verify d1 t (JWT_SECRET d1) = jwt_verify d2 t (JWT_SECRET d2)) ->
  authenticateAdmin d1 req = authenticateAdmin d2 req.
Proof.
  intros H. unfold authenticateAdmin.
  destruct (token_of (headers_authorization req)) as [t|] eqn:Ht; simpl; [|done].
  destruct (String.eqb t "") eqn:Hne; simpl; [done|].
  apply String.eqb_neq in Hne. rewrite (H t Hne); [done|].
  by apply (token_no_space (headers_authorization req)).
Qed.

Lemma X20_gate_verifies_clean_tokens_witness :
  authenticateAdmin Demo.deps
    (Demo.request POST ["movies"] (Some "Bearer a b") "" Demo.dune)
  = authenticateAdmin
      {| jwt_verify := fun t s =>
                         if String.eqb t "a b" then Some {| role := Js.str "admin" |}
                         else Demo.verify t s;
         JWT_SECRET := Some "secret"; ObjectId_generate := N.of_nat;
         pcre_other := fun _ => None |}
      (Demo.request POST ["movies"] (Some "Bearer a b") "" Demo.dune).
Proof.
  apply X20_gate_verifies_clean_tokens. intros t _ Ht. simpl.
  destruct (String.eqb_spec t "a b") as [->|]; [|done].
  simpl in Ht. by destruct Ht as (_ & ? & _).
Defined.






(** ** The start of the process *)

(** X22. The process listens only after the database connection has
    succeeded, and then on the port of the environment, or on 5000 when
    [PORT] is unset or empty; when the connection fails it listens on
    nothing and its last act is to exit with code 1. *)
Theorem X22_startup (e : Startup.Env) (connects listens : bool) :
  let trace := Startup.server e connects listens in
  (forall p, Startup.app_listen p ∈ trace <->
             connects = true /\ p = Startup.port_of e)
  /\ (forall pre p post, trace = (pre ++ Startup.app_listen p :: post)%list ->
        pre = [Startup.log_connecting (Startup.MONGO_URI e);
               Startup.mongoose_connect (Startup.MONGO_URI e);
               Startup.log_connected])
  /\ (connects = false -> last trace = Some (Startup.process_exit 1))
  /\ (forall n, Startup.process_exit n ∈ trace -> connects = false /\ n = 1)
  /\ (Startup.port_of e = Startup.PortNumber 5000 <->
      Startup.PORT e = None \/ Startup.PORT e = Some "")
  /\ (forall s, Startup.port_of e = Startup.PortString s <->
                Startup.PORT e = Some s /\ s <> "").
Proof.
  intros trace. unfold trace, Startup.server, Startup.connect.
  split; [|split; [|split; [|split; [|split]]]].
  - intros p. destruct connects; simpl.
    + split.
      * intros H. rewrite !elem_of_cons in H.
        destruct H as [H|[H|[H|[H|H]]]]; try discriminate.
        { by injection H as <-. }
        destruct listens;
          [apply list_elem_of_singleton in H | apply elem_of_nil in H]; done.
      * intros [_ ->]. rewrite !elem_of_cons. auto 6.
    + split; [|by intros [? _]]. intros H.
      rewrite !elem_of_cons, elem_of_nil in H.
      destruct H as [H|[H|[H|[H|H]]]]; done.
  - intros pre p post. destruct connects; simpl.
    + destruct pre as [|? [|? [|? [|? pre]]]]; simpl; intros [= ]; subst; try done.
      destruct listens; destruct pre as [|? [|? ?]]; done.
    + destruct pre as [|? [|? [|? [|? [|? ?]]]]]; done.
  - by intros ->.
  - intros n. destruct connects; simpl; intros H.
    + rewrite !elem_of_cons in H.
      destruct H as [H|[H|[H|[H|H]]]]; try discriminate.
      destruct listens;
        [apply list_elem_of_singleton in H | apply elem_of_nil in H]; done.
    + rewrite !elem_of_cons, elem_of_nil in H.
      destruct H as [H|[H|[H|[H|H]]]]; try done. by injection H as <-.
  - unfold Startup.port_of. destruct (Startup.PORT e) as [s|]; [|by split; auto].
    destruct (String.eqb_spec s "") as [->|Hs].
    + split; auto.
    + split; [done|]. by intros [? | [= ->]].
  - intros s. unfold Startup.port_of. destruct (Startup.PORT e) as [s'|].
    + destruct (String.eqb_spec s' "") as [->|Hs].
      * split; [done|]. by intros [[= <-] ?].
      * split; [by intros [= <-] | by intros [[= <-] _]].
    + split; [done | by intros [? _]].
Qed.

Lemma X22_startup_witness :
  last (Startup.server {| Startup.MONGO_URI := None; Startup.PORT := Some "8080" |}
          false true)
  = Some (Startup.process_exit 1)
  /\ Startup.port_of {| Startup.MONGO_URI := None; Startup.PORT := Some "8080" |}
     = Startup.PortString "8080".
Proof.
  pose proof (X22_startup {| Startup.MONGO_URI := None; Startup.PORT := Some "8080" |}
                false true) as (_ & _ & H1 & _ & _ & H2).
  split; [by apply H1|]. by apply H2.
Defined.

Lemma X6_add_exact_witness :
  status (addMovie Demo.deps
            (Demo.request POST ["movies"] (Some "Bearer good") "" Demo.dune)
            Demo.empty_world).1 = 201.
Proof.
  apply (X6_add_exact Demo.deps). split; [|split; reflexivity].
  split; [by exists "Dune"|]. split; [by exists "Sci-Fi"|].
  split; [|by exists "http://x"].
  exists (9 # 1)%Q. repeat split; discriminate.
Defined.

Lemma X7_add_keeps_records_witness :
  docs (addMovie Demo.deps
          (Demo.request POST ["movies"] (Some "Bearer good") "" Demo.dune)
          Demo.dune_world).2 !! 0%N
  = Some Demo.dune.
Proof.
  apply (X7_add_keeps_records Demo.deps). reflexivity.
Defined.

Lemma X9_update_answers_witness :
  updateMovie
    (with_params_id
       (Demo.request PUT ["movies"; Demo.id0] (Some "Bearer good") "" Demo.dune)
       Demo.id0)
    {| docs := docs Demo.dune_world; connected := false; constructed := 1 |}
  = (res_status_json 400 (Message "Invalid data"),
     {| docs := docs Demo.dune_world; connected := false; constructed := 1 |}).
Proof.
  apply X9_update_answers. right. reflexivity.
Defined.

Lemma X15_search_any_query_witness :
  (searchMovies Demo.deps (Demo.request GET ["search"] None "(" Demo.no_fields)
     Demo.dune_world).1
  = res_status_json 500 (Message "Server error").
Proof.
  apply (X15_search_any_query Demo.deps). right. reflexivity.
Defined.
